(** * Text_to_SQL: the query pipeline of [app.py]

    A shallow embedding of the Flask application [src/app.py]: the schema
    introspector [get_schema_from_db], the SQL extraction of
    [get_sql_query_from_question] (Python's [re.search] with the pattern
    of line 55), the result normaliser [parse_results] and the [/query]
    handler.

    Python values are dynamically typed, so they are embedded as one
    inductive type [pyval]; a Python call either returns or raises, which
    is the type [outcome]; the calls that leave the process (the reading
    of the tables, the LLM chain, [db.run]) are logged in a trace threaded
    through the [io] monad. *)

From Stdlib Require Import String Ascii ZArith Bool Lia PeanoNat List.
Import ListNotations.

Set Implicit Arguments.
Set Warnings "-register-all".


(* ================================================================== *)
(** * Python strings *)

(** A Python [str] is a sequence of code points; the model keeps the code
    points below 256, one [ascii] each. *)
Definition str := list ascii.

Definition of_string (s : string) : str := list_ascii_of_string s.
Coercion of_string : string >-> str.

Open Scope string_scope.
Open Scope list_scope.
Open Scope nat_scope.

Definition backtick : ascii := "`"%char.
Definition newline : ascii := "010"%char.

(** [str.isspace] on one code point (CPython's [_PyUnicode_IsWhitespace]
    below 256): TAB..CR, FS..US, SPACE, NEL and NBSP.  The class [\s] of
    [re] on a [str] pattern is the same set. *)
Definition isspace (c : ascii) : bool :=
  let n := nat_of_ascii c in
  ((9 <=? n) && (n <=? 13)) || ((28 <=? n) && (n <=? 32))
  || (n =? 133) || (n =? 160).

(** [str.lower] on one code point below 256. *)
Definition lower (c : ascii) : ascii :=
  let n := nat_of_ascii c in
  if ((65 <=? n) && (n <=? 90))
     || ((192 <=? n) && (n <=? 222) && negb (n =? 215))
  then ascii_of_nat (n + 32) else c.

Fixpoint str_eqb (a b : str) : bool :=
  match a, b with
  | [], [] => true
  | x :: a', y :: b' => Ascii.eqb x y && str_eqb a' b'
  | _, _ => false
  end.

(** [s.startswith(p)]. *)
Fixpoint startswith (p s : str) : bool :=
  match p, s with
  | [], _ => true
  | x :: p', y :: s' => Ascii.eqb x y && startswith p' s'
  | _ :: _, [] => false
  end.

(** [s.endswith(p)]. *)
Definition endswith (p s : str) : bool := startswith (rev p) (rev s).

(** [s.lstrip()], [s.rstrip()] and [s.strip()] with no argument. *)
Fixpoint lstrip (s : str) : str :=
  match s with
  | c :: s' => if isspace c then lstrip s' else s
  | [] => []
  end.

Definition rstrip (s : str) : str := rev (lstrip (rev s)).

Definition strip (s : str) : str := rstrip (lstrip s).

(** [sep.join(items)] once the items are known to be strings. *)
Fixpoint join (sep : str) (items : list str) : str :=
  match items with
  | [] => []
  | [x] => x
  | x :: rest => x ++ sep ++ join sep rest
  end.

(* ================================================================== *)
(** * Python values, exceptions and outcomes *)

(** An exception: its class name and [str(e)]. *)
Inductive exn : Type :=
| Exception (cls : str) (msg : str).

Definition exn_msg (e : exn) : str :=
  match e with Exception _ m => m end.

Inductive outcome (A : Type) : Type :=
| Return (a : A)
| Raise (e : exn).

Arguments Return {A} a.
Arguments Raise {A} e.

Definition bind {A B : Type} (c : outcome A) (k : A -> outcome B) : outcome B :=
  match c with
  | Return a => k a
  | Raise e => Raise e
  end.

Declare Scope py_scope.
Delimit Scope py_scope with py.
Notation "x <- c ;; k" := (bind c (fun x => k))
  (at level 61, c at next level, right associativity) : py_scope.
Open Scope py_scope.

(** A Python [float]: an IEEE 754 double, kept by its class.  Only the
    test against zero is used below. *)
Inductive pyfloat : Type :=
| FZero (negative : bool)
| FFinite (negative : bool) (mantissa : positive) (exponent : Z)
| FInf (negative : bool)
| FNaN.

Definition float_is_zero (f : pyfloat) : bool :=
  match f with FZero _ => true | _ => false end.

(** The values that reach [parse_results] and [query]: what a database
    driver returns, what [ast.literal_eval] builds and what a JSON body
    parses to.  A [set] and a [dict] keep their elements in iteration
    order, a [dict] with pairwise distinct keys. *)
Inductive pyval : Type :=
| PNone
| PEllipsis
| PBool (b : bool)
| PInt (n : Z)
| PFloat (f : pyfloat)
| PComplex (re im : pyfloat)
| PStr (s : str)
| PBytes (b : list ascii)
| PTuple (items : list pyval)
| PList (items : list pyval)
| PSet (items : list pyval)
| PDict (entries : list (pyval * pyval)).

(** [type(v).__name__]. *)
Definition type_name (v : pyval) : str :=
  match v with
  | PNone => "NoneType"
  | PEllipsis => "ellipsis"
  | PBool _ => "bool"
  | PInt _ => "int"
  | PFloat _ => "float"
  | PComplex _ _ => "complex"
  | PStr _ => "str"
  | PBytes _ => "bytes"
  | PTuple _ => "tuple"
  | PList _ => "list"
  | PSet _ => "set"
  | PDict _ => "dict"
  end.

(** [bool(v)]: the truth value the statement [if not v] tests. *)
Definition truthy (v : pyval) : bool :=
  match v with
  | PNone => false
  | PEllipsis => true
  | PBool b => b
  | PInt n => negb (n =? 0)%Z
  | PFloat f => negb (float_is_zero f)
  | PComplex re im => negb (float_is_zero re && float_is_zero im)
  | PStr s => negb (length s =? 0)
  | PBytes b => negb (length b =? 0)
  | PTuple xs | PList xs | PSet xs => negb (length xs =? 0)
  | PDict kvs => negb (length kvs =? 0)
  end.

Definition isinstance_str (v : pyval) : bool :=
  match v with PStr _ => true | _ => false end.

Definition isinstance_list (v : pyval) : bool :=
  match v with PList _ => true | _ => false end.

Definition isinstance_tuple (v : pyval) : bool :=
  match v with PTuple _ => true | _ => false end.

Definition TypeError (msg : str) : exn := Exception "TypeError" msg.
Definition KeyError (msg : str) : exn := Exception "KeyError" msg.
Definition IndexError (msg : str) : exn := Exception "IndexError" msg.
Definition AttributeError (msg : str) : exn := Exception "AttributeError" msg.

(** [len(v)]. *)
Definition py_len (v : pyval) : outcome nat :=
  match v with
  | PStr s => Return (length s)
  | PBytes b => Return (length b)
  | PTuple xs | PList xs | PSet xs => Return (length xs)
  | PDict kvs => Return (length kvs)
  | _ => Raise (TypeError (of_string "object of type '" ++ type_name v
                           ++ of_string "' has no len()"))
  end.

(** [k == 0] for a dictionary key [k]. *)
Definition key_is_zero (k : pyval) : bool :=
  match k with
  | PInt n => (n =? 0)%Z
  | PBool b => negb b
  | PFloat f => float_is_zero f
  | PComplex re im => float_is_zero re && float_is_zero im
  | _ => false
  end.

(** [k == name] for a dictionary key [k] and a string [name]. *)
Definition key_is_str (name : str) (k : pyval) : bool :=
  match k with
  | PStr s => str_eqb s name
  | _ => false
  end.

Fixpoint dict_lookup (same : pyval -> bool) (kvs : list (pyval * pyval)) : option pyval :=
  match kvs with
  | [] => None
  | (k, v) :: rest => if same k then Some v else dict_lookup same rest
  end.

(** [v[0]]. *)
Definition subscript0 (v : pyval) : outcome pyval :=
  match v with
  | PStr s =>
      match s with
      | c :: _ => Return (PStr [c])
      | [] => Raise (IndexError "string index out of range")
      end
  | PBytes b =>
      match b with
      | c :: _ => Return (PInt (Z.of_nat (nat_of_ascii c)))
      | [] => Raise (IndexError "index out of range")
      end
  | PTuple xs =>
      match xs with
      | x :: _ => Return x
      | [] => Raise (IndexError "tuple index out of range")
      end
  | PList xs =>
      match xs with
      | x :: _ => Return x
      | [] => Raise (IndexError "list index out of range")
      end
  | PDict kvs =>
      match dict_lookup key_is_zero kvs with
      | Some x => Return x
      | None => Raise (KeyError "0")
      end
  | _ => Raise (TypeError (of_string "'" ++ type_name v
                           ++ of_string "' object is not subscriptable"))
  end.

(** [d.get(name, default)]: a method of [dict] only. *)
Definition dict_get (d : pyval) (name : str) (default : pyval) : outcome pyval :=
  match d with
  | PDict kvs =>
      match dict_lookup (key_is_str name) kvs with
      | Some x => Return x
      | None => Return default
      end
  | _ => Raise (AttributeError
                  (of_string "'" ++ type_name d
                   ++ of_string "' object has no attribute 'get'"))
  end.

(** The items [iter(v)] yields. *)
Definition py_iter (v : pyval) : outcome (list pyval) :=
  match v with
  | PStr s => Return (map (fun c => PStr [c]) s)
  | PBytes b => Return (map (fun c => PInt (Z.of_nat (nat_of_ascii c))) b)
  | PTuple xs | PList xs | PSet xs => Return xs
  | PDict kvs => Return (map fst kvs)
  | _ => Raise (TypeError "can only join an iterable")
  end.

Fixpoint str_items (items : list pyval) : option (list str) :=
  match items with
  | [] => Some []
  | PStr s :: rest =>
      match str_items rest with
      | Some l => Some (s :: l)
      | None => None
      end
  | _ :: _ => None
  end.

(** [sep.join(iterable)]: the iterable is walked, every item has to be a
    [str]. *)
Definition str_join (sep : str) (iterable : pyval) : outcome str :=
  items <- py_iter iterable ;;
  match str_items items with
  | Some l => Return (join sep l)
  | None => Raise (TypeError "sequence item: expected str instance")
  end.

(** A dictionary display with string keys, [{"k": v, ...}]. *)
Definition dict_of (entries : list (string * pyval)) : pyval :=
  PDict (map (fun e => (PStr (of_string (fst e)), snd e)) entries).

(* ================================================================== *)
(** * Regular expressions: a backtracking matcher for [re.search] *)

(** The flags of line 55, [re.DOTALL | re.IGNORECASE]. *)
Record re_flags : Type := { IGNORECASE : bool; DOTALL : bool }.

(** What matches one character: a literal, [\s] or [.]. *)
Inductive atom : Type :=
| Lit (c : ascii)
| Space
| Dot.

(** The patterns the application uses: concatenations of single
    characters, greedy and lazy stars of single characters, and one
    capturing group. *)
Inductive regex : Type :=
| Empty
| One (a : atom)
| Star (a : atom)
| StarLazy (a : atom)
| Group (r : regex)
| Seq (r1 r2 : regex).

Definition atom_matches (fl : re_flags) (a : atom) (c : ascii) : bool :=
  match a with
  | Lit x =>
      if IGNORECASE fl then Ascii.eqb (lower c) (lower x) else Ascii.eqb c x
  | Space => isspace c
  | Dot => DOTALL fl || negb (Ascii.eqb c newline)
  end.

Section Backtracking.
Variable R : Type.
Variable p : ascii -> bool.

(** [a*]: take as many characters as match, give them back one at a
    time while the rest of the pattern fails. *)
Fixpoint star_greedy (s : str) (k : str -> option R) : option R :=
  match s with
  | c :: s' =>
      if p c then
        match star_greedy s' k with
        | Some r => Some r
        | None => k s
        end
      else k s
  | [] => k s
  end.

(** [a*?]: try the rest of the pattern first, take one more character
    each time it fails. *)
Fixpoint star_lazy (s : str) (k : str -> option R) : option R :=
  match k s with
  | Some r => Some r
  | None =>
      match s with
      | c :: s' => if p c then star_lazy s' k else None
      | [] => None
      end
  end.
End Backtracking.

(** [rmatch fl r s g k]: match [r] at the front of [s], then run the rest
    of the pattern [k] on what is left; [g] is the text captured by the
    group so far.  The first success in the engine's order of choices is
    the result. *)
Fixpoint rmatch (R : Type) (fl : re_flags) (r : regex) (s : str) (g : option str)
    (k : str -> option str -> option R) : option R :=
  match r with
  | Empty => k s g
  | One a =>
      match s with
      | c :: s' => if atom_matches fl a c then k s' g else None
      | [] => None
      end
  | Star a => star_greedy (atom_matches fl a) s (fun s' => k s' g)
  | StarLazy a => star_lazy (atom_matches fl a) s (fun s' => k s' g)
  | Group r1 =>
      rmatch fl r1 s g
        (fun s' _ => k s' (Some (firstn (length s - length s') s)))
  | Seq r1 r2 => rmatch fl r1 s g (fun s' g' => rmatch fl r2 s' g' k)
  end.

(** A match object: [m.group(0)] and [m.group(1)] ([None] when the group
    took no part in the match). *)
Record re_match : Type := { group0 : str; group1 : option str }.

Definition match_here (fl : re_flags) (r : regex) (s : str) : option re_match :=
  rmatch fl r s None
    (fun s' g => Some {| group0 := firstn (length s - length s') s; group1 := g |}).

(** [re.search(r, s, fl)]: the match at the leftmost position that has
    one, [None] when no position has. *)
Fixpoint re_search (fl : re_flags) (r : regex) (s : str) : option re_match :=
  match match_here fl r s with
  | Some m => Some m
  | None =>
      match s with
      | [] => None
      | _ :: s' => re_search fl r s'
      end
  end.

Fixpoint literal (p : str) : regex :=
  match p with
  | [] => Empty
  | c :: p' => Seq (One (Lit c)) (literal p')
  end.

Definition fence : str := "```".
Definition sql_opener : str := "```sql".

(** The pattern of line 55, [```sql\s*(.*?)\s*```], and its flags. *)
Definition sql_fence_pattern : regex :=
  Seq (literal sql_opener)
    (Seq (Star Space)
       (Seq (Group (StarLazy Dot))
          (Seq (Star Space) (literal fence)))).

Definition sql_fence_flags : re_flags :=
  {| IGNORECASE := true; DOTALL := true |}.

(* ================================================================== *)
(** * The application *)

(** What leaves the process: the reading of the table definitions and
    sample rows by [get_table_info()], a call of the LLM chain, a
    statement run on the database by [db.run]. *)
Inductive event : Type :=
| TableInfo
| LLMCall (schema : str) (question : pyval)
| DBRun (sql_query : str).

(** A computation that may raise and that appends to the trace of
    external calls. *)
Definition io (A : Type) : Type := list event -> outcome A * list event.

Definition ret {A : Type} (a : A) : io A := fun log => (Return a, log).

Definition lift {A : Type} (c : outcome A) : io A := fun log => (c, log).

Definition io_bind {A B : Type} (c : io A) (k : A -> io B) : io B :=
  fun log =>
    match c log with
    | (Return a, log') => k a log'
    | (Raise e, log') => (Raise e, log')
    end.

(** [try: body except Exception as e: handler(e)]. *)
Definition try_except {A : Type} (body : io A) (handler : exn -> io A) : io A :=
  fun log =>
    match body log with
    | (Return a, log') => (Return a, log')
    | (Raise e, log') => handler e log'
    end.

Declare Scope io_scope.
Delimit Scope io_scope with io.
Notation "x <~ c ;; k" := (io_bind c (fun x => k))
  (at level 61, c at next level, right associativity) : io_scope.
Open Scope io_scope.

(** The database handle of line 23.  [SQLDatabase] is langchain's: its
    state is the description block of every table (definition and sample
    rows), in the order of the sorted table names, the error of the
    driver when the tables cannot be read (the server is unreachable,
    say), and what a statement returns or raises when it is run. *)
Record SQLDatabase : Type := {
  table_descriptions : list str;
  unreachable : option exn;
  run : str -> outcome pyval
}.

(** langchain's [SQLDatabase.get_table_info()]: it queries the database
    and returns one [str], the blocks joined by a blank line, or raises
    the driver's error. *)
Definition get_table_info (database : SQLDatabase) : io pyval :=
  fun log =>
    (match unreachable database with
     | Some e => Raise e
     | None =>
         Return (PStr (join [newline; newline] (table_descriptions database)))
     end,
     log ++ [TableInfo]).

(** Lines 39-43. *)
Definition get_schema_from_db (database : SQLDatabase) : io str :=
  table_info <~ get_table_info database ;;
  schema <~ lift (str_join [newline] table_info) ;;
  ret schema.

(** An HTTP response: the JSON payload and the status code. *)
Record response : Type := { body : pyval; status : Z }.

(** The payloads every JSON encoder accepts: [None], booleans, strings,
    lists and tuples of such values, and dictionaries of such values
    under string keys. *)
Fixpoint json_plain (v : pyval) : bool :=
  match v with
  | PNone | PBool _ | PStr _ => true
  | PTuple items | PList items => forallb json_plain items
  | PDict entries =>
      forallb (fun kv => let '(k, x) := kv in isinstance_str k && json_plain x)
        entries
  | _ => false
  end.

(** The tagged dictionary [{"type": tag, "data": data}]. *)
Definition tagged (tag : string) (data : pyval) : pyval :=
  dict_of [("type", PStr tag); ("data", data)].

(** The first half of [parse_results] either returns or goes on with a
    rebound [results]. *)
Inductive flow : Type :=
| Returned (v : pyval)
| GoesOn (results : pyval).

Section App.
(** The database behind the global [db]. *)
Variable db : SQLDatabase.
(** [prompt | llm.bind(stop=...) | StrOutputParser()] on the schema and
    the question: the text the model answers, or the provider's error. *)
Variable llm : str -> pyval -> outcome str.
(** [ast.literal_eval]: the value of a literal, or the exception it
    raises on anything else. *)
Variable literal_eval : str -> outcome pyval.
(** Flask's JSON provider: the exception its [dumps] raises on a payload
    ([TypeError] on bytes, sets, complex numbers and the like), [None]
    when it serialises the payload. *)
Variable json_error : pyval -> option exn.

(** [jsonify(payload)]: the payload the response carries, or the
    exception of the provider.  Serialisation happens inside the call. *)
Definition jsonify (payload : pyval) : outcome pyval :=
  if json_plain payload then Return payload
  else
    match json_error payload with
    | Some e => Raise e
    | None => Return payload
    end.

(** Lines 45-50: [sql_chain.invoke({"question": question})]. *)
Definition sql_chain_invoke (question : pyval) : io str :=
  schema <~ get_schema_from_db db ;;
  fun log => (llm schema question, log ++ [LLMCall schema question]).

(** Lines 52-58. *)
Definition get_sql_query_from_question (question : pyval) : io str :=
  sql_query <~ sql_chain_invoke question ;;
  let query := re_search sql_fence_flags sql_fence_pattern sql_query in
  match query with
  | Some m =>
      match group1 m with
      | Some text => ret (strip text)
      | None =>
          lift (Raise (AttributeError
                         "'NoneType' object has no attribute 'strip'"))
      end
  | None => ret sql_query
  end.

(** Lines 60-63. *)
Definition execute_sql_query (sql_query : str) : io pyval :=
  fun log => (run db sql_query, log ++ [DBRun sql_query]).

(** Lines 71-82: a string is stripped and, when it looks like a list,
    evaluated. *)
Definition parse_string (results : pyval) : flow :=
  match results with
  | PStr s =>
      let results := strip s in
      if startswith "[" results && endswith "]" results then
        match literal_eval results with
        | Return v => GoesOn v
        | Raise _ => Returned (tagged "text" (PStr results))
        end
      else Returned (tagged "text" (PStr results))
  | _ => GoesOn results
  end.

(** Lines 85-99. *)
Definition classify (results : pyval) : outcome pyval :=
  match results with
  | PList rows =>
      if length rows =? 0 then Return (tagged "empty" PNone)
      else
        single <- (if length rows =? 1
                   then row <- subscript0 results ;;
                        n <- py_len row ;;
                        Return (n =? 1)
                   else Return false) ;;
        if single then
          row <- subscript0 results ;;
          value <- subscript0 row ;;
          Return (tagged "single" value)
        else if forallb isinstance_tuple rows then
          Return (tagged "table" results)
        else
          Return (tagged "list" results)
  | _ => Return (tagged "single" results)
  end.

(** Lines 65-99. *)
Definition parse_results (results : pyval) : outcome pyval :=
  if negb (truthy results) then Return (tagged "empty" PNone)
  else
    match parse_string results with
    | Returned v => Return v
    | GoesOn results => classify results
    end.

(** Lines 105-133.  [get_json] is [request.get_json()]: the parsed
    body, or the exception Flask raises for a body that is not JSON. *)
Definition query (get_json : outcome pyval) : io response :=
  try_except
    (data <~ lift get_json ;;
     question <~ lift (dict_get data "question" (PStr "")) ;;
     if negb (truthy question) then
       payload <~ lift (jsonify
                          (dict_of [("error", PStr "Question is required")])) ;;
       ret {| body := payload; status := 400 |}
     else
       sql_query <~ get_sql_query_from_question question ;;
       results <~ execute_sql_query sql_query ;;
       parsed_results <~ lift (parse_results results) ;;
       payload <~ lift (jsonify (dict_of [("success", PBool true);
                                          ("sql_query", PStr sql_query);
                                          ("results", parsed_results)])) ;;
       ret {| body := payload; status := 200 |})
    (fun e =>
       payload <~ lift (jsonify (dict_of [("success", PBool false);
                                          ("error", PStr (exn_msg e))])) ;;
       ret {| body := payload; status := 500 |}).
End App.

(* ================================================================== *)
(** * Notions the statements use *)

(** [s] starts with [p] up to letter case. *)
Fixpoint startswith_ci (p s : str) : bool :=
  match p, s with
  | [], _ => true
  | x :: p', y :: s' => Ascii.eqb (lower y) (lower x) && startswith_ci p' s'
  | _ :: _, [] => false
  end.

(** The least [n] such that [here] holds of [s[n:]]. *)
Fixpoint index_of (here : str -> bool) (s : str) : option nat :=
  if here s then Some 0
  else
    match s with
    | [] => None
    | _ :: s' => option_map S (index_of here s')
    end.

(** [s.find(sub)], with [None] for Python's [-1]. *)
Definition find (sub s : str) : option nat := index_of (startswith sub) s.

(** Where the first [```sql] opener (in any letter case) starts. *)
Definition find_opener (s : str) : option nat :=
  index_of (startswith_ci sql_opener) s.

(** [s] is empty or starts with a character that is not white space. *)
Definition starts_nonspace (s : str) : bool :=
  match s with
  | [] => true
  | c :: _ => negb (isspace c)
  end.

Definition is_space (c : ascii) : Prop := isspace c = true.

(** A language model that answers every prompt with the same text. *)
Definition canned_llm (answer : str) : str -> pyval -> outcome str :=
  fun _ _ => Return answer.

(** An evaluator that rejects its argument, as [ast.literal_eval] rejects
    what is not a Python literal. *)
Definition rejecting_eval : str -> outcome pyval :=
  fun _ => Raise (Exception "ValueError" "malformed node or string").

(** A database with two tables whose statements return no rows. *)
Definition sample_db : SQLDatabase :=
  {| table_descriptions := [of_string "ab"; of_string "c"];
     unreachable := None;
     run := fun _ => Return (PStr []) |}.

Definition nl : str := [newline].

(** A response with a fence that carries no language tag. *)
Definition plain_fence_response : str :=
  fence ++ nl ++ of_string "SELECT 1" ++ nl ++ fence.

(** A response with two SQL fences and text around them. *)
Definition two_fence_response : str :=
  of_string "Try " ++ of_string "```SQL" ++ (nl ++ of_string "SELECT `a` FROM t;" ++ nl)
  ++ fence ++ of_string " or " ++ of_string "```sql" ++ of_string " SELECT 2 "
  ++ fence ++ of_string " instead.".

(** The interior of an SQL block that starts where [s] starts:
    [s[:6].lower() == "```sql"] and a fence occurs in [s[6:]]; the
    interior is [s[6:]] up to the first such fence. *)
Definition block_at (s : str) : option str :=
  if startswith_ci sql_opener s
  then option_map (fun n => firstn n (skipn 6 s)) (find fence (skipn 6 s))
  else None.

(** The interior of the leftmost SQL block of [s]. *)
Fixpoint first_block (s : str) : option str :=
  match block_at s with
  | Some interior => Some interior
  | None =>
      match s with
      | [] => None
      | _ :: s' => first_block s'
      end
  end.

(** What the extraction makes of a response, said without a regular
    expression: the trimmed interior of the leftmost SQL block, or the
    response itself when it has no such block. *)
Definition extract_sql (raw : str) : str :=
  match first_block raw with
  | Some interior => strip interior
  | None => raw
  end.

(** [x] occurs in [s] as a run of consecutive characters. *)
Definition substring (x s : str) : Prop := exists a b, s = a ++ x ++ b.

(** A list of exactly one element. *)
Definition is_singleton_list (v : pyval) : bool :=
  match v with
  | PList [_] => true
  | _ => false
  end.

Definition isinstance_dict (v : pyval) : bool :=
  match v with PDict _ => true | _ => false end.

(** The tags a normalised result can carry. *)
Definition result_tags : list string :=
  ["empty"; "single"; "list"; "table"; "text"]%string.

(** The payloads of lines 123-127 and 130-133. *)
Definition success_body (sql_query : str) (parsed_results : pyval) : pyval :=
  dict_of [("success", PBool true); ("sql_query", PStr sql_query);
           ("results", parsed_results)].

Definition failure_body (e : exn) : pyval :=
  dict_of [("success", PBool false); ("error", PStr (exn_msg e))].

Definition question_required_body : pyval :=
  dict_of [("error", PStr (of_string "Question is required"))].

(** A language model whose provider fails. *)
Definition failing_llm : str -> pyval -> outcome str :=
  fun _ _ => Raise (Exception "RuntimeError" "quota exceeded").

(** A database whose statements fail, and one whose statements return a
    list of one integer. *)
Definition broken_db : SQLDatabase :=
  {| table_descriptions := [of_string "ab"; of_string "c"];
     unreachable := None;
     run := fun _ => Raise (Exception "ProgrammingError" "no such table") |}.

Definition scalar_list_db : SQLDatabase :=
  {| table_descriptions := [of_string "ab"; of_string "c"];
     unreachable := None;
     run := fun _ => Return (PList [PInt 42]) |}.

(** A database that answers every statement with the string form of one
    row of two columns, and an evaluator that knows that string. *)
Definition row_db : SQLDatabase :=
  {| table_descriptions := [of_string "ab"; of_string "c"];
     unreachable := None;
     run := fun _ => Return (PStr (of_string "[(1, 'a')]")) |}.

Definition row_eval : str -> outcome pyval :=
  fun s =>
    if str_eqb s (of_string "[(1, 'a')]")
    then Return (PList [PTuple [PInt 1; PStr (of_string "a")]])
    else Raise (Exception "ValueError" "malformed node or string").

(** A database whose tables cannot be read. *)
Definition offline_db : SQLDatabase :=
  {| table_descriptions := [];
     unreachable := Some (Exception "OperationalError" "cannot connect");
     run := fun _ => Raise (Exception "OperationalError" "cannot connect") |}.

(** A JSON provider that serialises what it is given, and one that
    refuses everything it is asked about, with the message of
    [json.dumps]. *)
Definition lenient_json : pyval -> option exn := fun _ => None.

Definition refusing_json : pyval -> option exn :=
  fun _ =>
    Some (Exception "TypeError" "Object of type bytes is not JSON serializable").

(** A database whose statements return a byte string. *)
Definition bytes_db : SQLDatabase :=
  {| table_descriptions := [of_string "ab"; of_string "c"];
     unreachable := None;
     run := fun _ => Return (PBytes (of_string "x")) |}.

(** The schema text [get_schema_from_db] makes of [sample_db]. *)
Definition sample_schema : str :=
  of_string "a" ++ nl ++ of_string "b" ++ nl ++ nl ++ nl ++ nl ++ nl
  ++ of_string "c".

(* ================================================================== *)
(** * Strings: white space and stripping *)

Lemma isspace_backtick : isspace backtick = false.
Proof. reflexivity. Qed.

Lemma lower_matches_backtick (c : ascii) :
  Ascii.eqb (lower c) (lower backtick) = Ascii.eqb backtick c.
Proof.
  destruct c as [[|] [|] [|] [|] [|] [|] [|] [|]]; reflexivity.
Qed.

Lemma lower_idempotent (c : ascii) : lower (lower c) = lower c.
Proof.
  destruct c as [[|] [|] [|] [|] [|] [|] [|] [|]]; reflexivity.
Qed.

Lemma starts_nonspace_lstrip (s : str) : starts_nonspace (lstrip s) = true.
Proof.
  induction s as [|c s IH]; simpl; [reflexivity|].
  destruct (isspace c) eqn:E; [exact IH|].
  simpl. now rewrite E.
Qed.

Lemma lstrip_fixed (s : str) : starts_nonspace s = true -> lstrip s = s.
Proof.
  destruct s as [|c s]; simpl; [reflexivity|].
  destruct (isspace c); [discriminate|reflexivity].
Qed.

Lemma lstrip_idempotent (s : str) : lstrip (lstrip s) = lstrip s.
Proof. apply lstrip_fixed, starts_nonspace_lstrip. Qed.

Lemma lstrip_spaces (w s : str) :
  Forall is_space w -> lstrip (w ++ s) = lstrip s.
Proof.
  induction 1 as [|c w Hc _ IH]; simpl; [reflexivity|].
  now rewrite Hc.
Qed.

(** A string is its leading white space followed by its [lstrip]. *)
Lemma lstrip_split (s : str) :
  exists w, Forall is_space w /\ s = w ++ lstrip s.
Proof.
  induction s as [|c s [w [Hw Hs]]].
  - exists []. split; [constructor|reflexivity].
  - simpl. destruct (isspace c) eqn:E.
    + exists (c :: w). split; [constructor; assumption|].
      simpl. now rewrite <- Hs.
    + exists []. split; [constructor|reflexivity].
Qed.

(** A string is its [rstrip] followed by its trailing white space. *)
Lemma rstrip_split (s : str) :
  exists w, Forall is_space w /\ s = rstrip s ++ w.
Proof.
  destruct (lstrip_split (rev s)) as [w [Hw Hs]].
  exists (rev w). split.
  - now apply Forall_rev.
  - unfold rstrip. rewrite <- rev_app_distr, <- Hs. symmetry. apply rev_involutive.
Qed.

Lemma rstrip_idempotent (s : str) : rstrip (rstrip s) = rstrip s.
Proof.
  unfold rstrip. now rewrite rev_involutive, lstrip_idempotent.
Qed.

(** [rstrip] of a string keeps what the string starts with, when that is
    not white space. *)
Lemma starts_nonspace_rstrip (s : str) :
  starts_nonspace s = true -> starts_nonspace (rstrip s) = true.
Proof.
  destruct (rstrip_split s) as [w [Hw Hs]].
  destruct (rstrip s) as [|c r]; [reflexivity|].
  intros H. rewrite Hs in H. exact H.
Qed.

Lemma strip_idempotent (s : str) : strip (strip s) = strip s.
Proof.
  unfold strip.
  rewrite (lstrip_fixed (rstrip (lstrip s))).
  - apply rstrip_idempotent.
  - apply starts_nonspace_rstrip, starts_nonspace_lstrip.
Qed.

(** A stripped string is empty or ends with a character that is not
    white space. *)
Lemma rstrip_ends_nonspace (s : str) :
  rstrip s = [] \/ exists x c, rstrip s = x ++ [c] /\ isspace c = false.
Proof.
  unfold rstrip.
  pose proof (starts_nonspace_lstrip (rev s)) as H.
  destruct (lstrip (rev s)) as [|c r]; [now left|right].
  exists (rev r), c. simpl in *. split; [reflexivity|].
  now destruct (isspace c).
Qed.

(** The body of a fence, cut into leading white space, stripped text and
    trailing white space. *)
Lemma strip_split (s : str) :
  exists w0 w1,
    Forall is_space w0 /\ Forall is_space w1 /\
    lstrip s = strip s ++ w1 /\ s = w0 ++ strip s ++ w1.
Proof.
  destruct (lstrip_split s) as [w0 [H0 Hs]].
  destruct (rstrip_split (lstrip s)) as [w1 [H1 Hl]].
  exists w0, w1. unfold strip. repeat split; try assumption.
  now rewrite <- Hl.
Qed.

(* ================================================================== *)
(** * Strings: prefixes and first occurrences *)

Lemma startswith_app_long (p a t : str) :
  length p <= length a -> startswith p (a ++ t) = startswith p a.
Proof.
  revert a. induction p as [|x p IH]; intros a H; [reflexivity|].
  destruct a as [|y a]; simpl in *; [lia|].
  rewrite IH by lia. reflexivity.
Qed.

Lemma startswith_self (p t : str) : startswith p (p ++ t) = true.
Proof.
  induction p as [|x p IH]; simpl; [reflexivity|].
  now rewrite Ascii.eqb_refl.
Qed.

Lemma startswith_ci_fence (s : str) :
  startswith_ci fence s = startswith fence s.
Proof.
  change fence with [backtick; backtick; backtick].
  destruct s as [|a [|b [|c s]]]; simpl;
    rewrite ?lower_matches_backtick; reflexivity.
Qed.

Lemma startswith_ci_app (p q s : str) :
  startswith_ci (p ++ q) s = true -> startswith_ci p s = true.
Proof.
  revert s. induction p as [|x p IH]; intros s H; [reflexivity|].
  destruct s as [|y s]; simpl in *; [discriminate|].
  apply andb_true_iff in H as [H1 H2].
  rewrite H1. simpl. now apply IH.
Qed.

(** An opener starts with three backticks. *)
Lemma opener_starts_with_fence (s : str) :
  startswith_ci sql_opener s = true -> startswith fence s = true.
Proof.
  intros H. rewrite <- startswith_ci_fence.
  apply startswith_ci_app with (q := of_string "sql"). exact H.
Qed.

Lemma startswith_ci_lower (o t : str) :
  startswith_ci (map lower o) (o ++ t) = true.
Proof.
  induction o as [|y o IH]; simpl; [reflexivity|].
  now rewrite lower_idempotent, Ascii.eqb_refl.
Qed.

Lemma index_of_some (here : str -> bool) (pre rest : str) :
  index_of here (pre ++ rest) = Some (length pre) ->
  here rest = true /\
  forall a b, pre = a ++ b -> b <> [] -> here (b ++ rest) = false.
Proof.
  induction pre as [|c pre IH]; simpl; intros H.
  - split.
    + destruct rest as [|c rest]; simpl in H.
      * destruct (here []); [reflexivity|discriminate].
      * destruct (here (c :: rest)); [reflexivity|].
        destruct (index_of here rest); discriminate.
    + intros a b Hab Hb. destruct a; destruct b; try discriminate. congruence.
  - destruct (here (c :: pre ++ rest)) eqn:E; [discriminate|].
    destruct (index_of here (pre ++ rest)) as [n|] eqn:En; [|discriminate].
    simpl in H. injection H as ->.
    destruct (IH eq_refl) as [Hr Hn]. split; [exact Hr|].
    intros a b Hab Hb. destruct a as [|x a]; simpl in Hab.
    + subst b. exact E.
    + injection Hab as -> ->. now apply (Hn a).
Qed.

Lemma index_of_none (here : str -> bool) (s : str) :
  index_of here s = None -> forall a b, s = a ++ b -> here b = false.
Proof.
  induction s as [|c s IH]; simpl; intros H a b Hab.
  - destruct a; destruct b; try discriminate.
    destruct (here []); [discriminate|reflexivity].
  - destruct (here (c :: s)) eqn:E; [discriminate|].
    destruct (index_of here s) eqn:En; [discriminate|].
    destruct a as [|x a]; simpl in Hab.
    + now subst b.
    + injection Hab as -> ->. now apply (IH eq_refl a).
Qed.

(* ================================================================== *)
(** * The matcher on the pattern of line 55 *)

Lemma star_greedy_ext (R : Type) (p : ascii -> bool) (s : str)
    (k1 k2 : str -> option R) :
  (forall t, k1 t = k2 t) -> star_greedy p s k1 = star_greedy p s k2.
Proof.
  intros H. induction s as [|c s IH]; simpl; [apply H|].
  now rewrite IH, H.
Qed.

Lemma star_lazy_ext (R : Type) (p : ascii -> bool) (s : str)
    (k1 k2 : str -> option R) :
  (forall t, k1 t = k2 t) -> star_lazy p s k1 = star_lazy p s k2.
Proof.
  intros H. induction s as [|c s IH]; simpl; rewrite H; [reflexivity|].
  now rewrite IH.
Qed.

(** A literal matches what starts with it up to letter case. *)
Lemma literal_spec (R : Type) (p s : str) (g : option str)
    (k : str -> option str -> option R) :
  rmatch sql_fence_flags (literal p) s g k
  = if startswith_ci p s then k (skipn (length p) s) g else None.
Proof.
  revert s. induction p as [|x p IH]; intros [|y s]; simpl; try reflexivity.
  destruct (Ascii.eqb (lower y) (lower x)); simpl; [apply IH|reflexivity].
Qed.

Lemma space_is_not_fence (c : ascii) (s : str) :
  isspace c = true -> startswith fence (c :: s) = false.
Proof.
  intros H. change fence with [backtick; backtick; backtick].
  cbn [startswith].
  destruct (Ascii.eqb_spec backtick c) as [<-|_]; [|reflexivity].
  rewrite isspace_backtick in H. discriminate.
Qed.

(** [\s*] before the closing fence: the white space cannot be given
    back, a fence does not start with it. *)
Lemma star_greedy_space_fence (R : Type) (s : str) (k : str -> option R) :
  star_greedy isspace s
    (fun t => if startswith fence t then k (skipn 3 t) else None)
  = if startswith fence (lstrip s) then k (skipn 3 (lstrip s)) else None.
Proof.
  induction s as [|c s IH]; [reflexivity|].
  cbn [star_greedy lstrip].
  destruct (isspace c) eqn:E; [|reflexivity].
  rewrite IH, (@space_is_not_fence c s E).
  destruct (startswith fence (lstrip s)); [|reflexivity].
  now destruct (k (skipn 3 (lstrip s))).
Qed.

(** [\s*```]. *)
Lemma closing_fence_spec (R : Type) (s : str) (g : option str)
    (k : str -> option str -> option R) :
  rmatch sql_fence_flags (Seq (Star Space) (literal fence)) s g k
  = if startswith fence (lstrip s) then k (skipn 3 (lstrip s)) g else None.
Proof.
  cbn [rmatch].
  change (atom_matches sql_fence_flags Space) with isspace.
  rewrite <- (star_greedy_space_fence s (fun t => k t g)).
  apply star_greedy_ext. intros t.
  rewrite literal_spec, startswith_ci_fence. reflexivity.
Qed.

(** [\s*] takes all the white space in front of it when the rest of the
    pattern then matches. *)
Lemma star_greedy_takes_spaces (R : Type) (w y : str) (k : str -> option R)
    (r : R) :
  Forall is_space w -> starts_nonspace y = true -> k y = Some r ->
  star_greedy isspace (w ++ y) k = Some r.
Proof.
  intros Hw Hy Hk. induction Hw as [|c w Hc _ IH]; simpl.
  - destruct y as [|c y]; simpl in *; [exact Hk|].
    destruct (isspace c); [discriminate|exact Hk].
  - rewrite Hc, IH. reflexivity.
Qed.

(** [.*?] under [DOTALL] steps over a prefix at no position of which the
    rest of the pattern matches. *)
Lemma star_lazy_skips (R : Type) (x y : str) (k : str -> option R) :
  (forall a b, x = a ++ b -> b <> [] -> k (b ++ y) = None) ->
  star_lazy (atom_matches sql_fence_flags Dot) (x ++ y) k
  = star_lazy (atom_matches sql_fence_flags Dot) y k.
Proof.
  induction x as [|c x IH]; intros H; [reflexivity|].
  assert (H0 : k (c :: x ++ y) = None) by (apply (H [] (c :: x)); easy).
  simpl. rewrite H0.
  apply IH. intros a b -> Hb. now apply (H (c :: a)).
Qed.

Lemma star_lazy_stops (R : Type) (p : ascii -> bool) (s : str)
    (k : str -> option R) (r : R) :
  k s = Some r -> star_lazy p s k = Some r.
Proof. intros H. destruct s; simpl; now rewrite H. Qed.

Lemma firstn_front (A : Type) (x y : list A) :
  firstn (length (x ++ y) - length y) (x ++ y) = x.
Proof.
  rewrite length_app.
  replace (length x + length y - length y) with (length x + 0) by lia.
  rewrite firstn_app_2. simpl. apply app_nil_r.
Qed.

Lemma skipn_front (A : Type) (n : nat) (x y : list A) :
  length x = n -> skipn n (x ++ y) = y.
Proof.
  intros <-. rewrite skipn_app, skipn_all, Nat.sub_diag. reflexivity.
Qed.

Lemma starts_nonspace_app (a b : str) :
  starts_nonspace a = true -> starts_nonspace b = true ->
  starts_nonspace (a ++ b) = true.
Proof. destruct a; simpl; auto. Qed.

(** In front of a text that ends with a character that is not white
    space, [lstrip] stops inside that text. *)
Lemma lstrip_inside (x y : str) :
  (exists x0 c, x = x0 ++ [c] /\ isspace c = false) ->
  exists a b, x = a ++ b /\ b <> [] /\ lstrip (x ++ y) = b ++ y.
Proof.
  induction x as [|d x IH]; intros [x0 [c [Hx Hc]]].
  - destruct x0; discriminate.
  - simpl. destruct (isspace d) eqn:E.
    + destruct x0 as [|d0 x0]; simpl in Hx; injection Hx as -> Hx.
      * congruence.
      * destruct IH as [a [b [Ha [Hb Hl]]]]; [now exists x0, c|].
        exists (d0 :: a), b.
        split; [now rewrite Ha|]. split; [exact Hb|exact Hl].
    + exists [], (d :: x). repeat split. discriminate.
Qed.

Lemma suffix_keeps_last (A : Type) (a b x0 : list A) (c : A) :
  a ++ b = x0 ++ [c] -> b <> [] -> exists b0, b = b0 ++ [c].
Proof.
  intros H Hb. destruct (exists_last Hb) as [b0 [c' ->]].
  rewrite app_assoc in H. apply app_inj_tail in H as [_ ->].
  now exists b0.
Qed.

(** [(.*?)\s*```] on a stripped text [x], white space [w] and the first
    fence after them: the group is [x]. *)
Lemma group_then_fence (R : Type) (x w t : str) (g : option str)
    (k : str -> option str -> option R) (r : R) :
  (x = [] \/ exists x0 c, x = x0 ++ [c] /\ isspace c = false) ->
  Forall is_space w ->
  (forall a b, x = a ++ b -> b <> [] ->
     startswith fence (b ++ w ++ fence ++ t) = false) ->
  k t (Some x) = Some r ->
  rmatch sql_fence_flags
    (Seq (Group (StarLazy Dot)) (Seq (Star Space) (literal fence)))
    (x ++ w ++ fence ++ t) g k = Some r.
Proof.
  intros Hx Hw Hin Hk. cbn [rmatch].
  set (s := x ++ w ++ fence ++ t).
  rewrite (@star_lazy_ext _ _ s _
    (fun s' => if startswith fence (lstrip s')
               then k (skipn 3 (lstrip s')) (Some (firstn (length s - length s') s))
               else None)) by (intros u; apply closing_fence_spec).
  unfold s. rewrite star_lazy_skips.
  - apply star_lazy_stops.
    rewrite (lstrip_spaces _ Hw), (lstrip_fixed (fence ++ t)) by reflexivity.
    rewrite startswith_self, firstn_front.
    exact Hk.
  - intros a b Hab Hb.
    destruct Hx as [->|Hx]; [destruct a; destruct b; easy|].
    destruct Hx as [x0 [c [Hx Hc]]].
    destruct (@suffix_keeps_last _ a b x0 c) as [b0 Hb0]; [congruence|exact Hb|].
    destruct (@lstrip_inside b (w ++ fence ++ t)) as [a' [b' [Ha' [Hb' Hl]]]];
      [now exists b0, c|].
    rewrite Hl, (Hin (a ++ a') b'); [reflexivity| |exact Hb'].
    rewrite Hab, Ha'. apply app_assoc.
Qed.

Lemma rmatch_seq (R : Type) (r1 r2 : regex) (s : str) (g : option str)
    (k : str -> option str -> option R) :
  rmatch sql_fence_flags (Seq r1 r2) s g k
  = rmatch sql_fence_flags r1 s g
      (fun s' g' => rmatch sql_fence_flags r2 s' g' k).
Proof. reflexivity. Qed.

Lemma rmatch_spaces (R : Type) (s : str) (g : option str)
    (k : str -> option str -> option R) :
  rmatch sql_fence_flags (Star Space) s g k
  = star_greedy isspace s (fun s' => k s' g).
Proof. reflexivity. Qed.

Lemma match_here_needs_opener (s : str) :
  startswith_ci sql_opener s = false ->
  match_here sql_fence_flags sql_fence_pattern s = None.
Proof.
  intros H. unfold match_here, sql_fence_pattern.
  now rewrite rmatch_seq, literal_spec, H.
Qed.

(** The match at an opener that a fence follows: the group is the text
    between the opener and the first fence after it, stripped. *)
Lemma match_here_fenced (opener body post : str) :
  length opener = length sql_opener ->
  startswith_ci sql_opener (opener ++ body ++ fence ++ post) = true ->
  (forall a b, body = a ++ b -> b <> [] -> startswith fence (b ++ fence) = false) ->
  match_here sql_fence_flags sql_fence_pattern (opener ++ body ++ fence ++ post)
  = Some {| group0 := opener ++ body ++ fence; group1 := Some (strip body) |}.
Proof.
  intros Hlen Hopen Hbody.
  unfold match_here, sql_fence_pattern.
  rewrite rmatch_seq, literal_spec, Hopen, (skipn_front _ _ Hlen).
  rewrite rmatch_seq, rmatch_spaces.
  destruct (strip_split body) as [w0 [w1 [H0 [H1 [Hl Hb]]]]].
  set (whole := opener ++ body ++ fence ++ post).
  rewrite Hb at 1. rewrite <- !app_assoc.
  apply star_greedy_takes_spaces; [exact H0| |].
  - rewrite app_assoc, <- Hl. apply starts_nonspace_app.
    + apply starts_nonspace_lstrip.
    + reflexivity.
  - apply group_then_fence;
      [exact (rstrip_ends_nonspace (lstrip body))|exact H1| |].
    + intros a b Hab Hnil.
      replace (b ++ w1 ++ fence ++ post) with (((b ++ w1) ++ fence) ++ post)
        by now rewrite <- !app_assoc.
      rewrite startswith_app_long.
      * apply (Hbody (w0 ++ a)); [|destruct b; easy].
        rewrite Hb at 1. rewrite Hab, <- !app_assoc. reflexivity.
      * rewrite !length_app. simpl. lia.
    + unfold whole.
      replace (opener ++ body ++ fence ++ post)
        with ((opener ++ body ++ fence) ++ post) by now rewrite <- !app_assoc.
      now rewrite firstn_front.
Qed.

Lemma re_search_skips (pre rest : str) :
  (forall a b, pre = a ++ b -> b <> [] ->
     startswith_ci sql_opener (b ++ rest) = false) ->
  re_search sql_fence_flags sql_fence_pattern (pre ++ rest)
  = re_search sql_fence_flags sql_fence_pattern rest.
Proof.
  induction pre as [|c pre IH]; intros H; [reflexivity|].
  simpl app. cbn [re_search].
  rewrite match_here_needs_opener by (apply (H [] (c :: pre)); easy).
  apply IH. intros a b -> Hb. now apply (H (c :: a)).
Qed.

Lemma re_search_here (s : str) (m : re_match) :
  match_here sql_fence_flags sql_fence_pattern s = Some m ->
  re_search sql_fence_flags sql_fence_pattern s = Some m.
Proof. intros H. destruct s; cbn [re_search]; now rewrite H. Qed.

Lemma re_search_none (s : str) :
  (forall a b, s = a ++ b -> startswith_ci sql_opener b = false) ->
  re_search sql_fence_flags sql_fence_pattern s = None.
Proof.
  induction s as [|c s IH]; intros H; cbn [re_search];
    rewrite match_here_needs_opener by (apply (H []); reflexivity).
  - reflexivity.
  - apply IH. intros a b ->. now apply (H (c :: a)).
Qed.

(** [re.search] on a response whose first opener starts after [pre] and
    whose first fence after that opener ends [body]. *)
Lemma re_search_first_fence (pre opener body post : str) :
  map lower opener = sql_opener ->
  find_opener (pre ++ opener ++ body ++ fence ++ post) = Some (length pre) ->
  find fence (body ++ fence) = Some (length body) ->
  re_search sql_fence_flags sql_fence_pattern
    (pre ++ opener ++ body ++ fence ++ post)
  = Some {| group0 := opener ++ body ++ fence; group1 := Some (strip body) |}.
Proof.
  intros Hop Hfirst Hclose.
  apply index_of_some in Hfirst as [Hhere Hbefore].
  apply index_of_some in Hclose as [_ Hinside].
  rewrite re_search_skips by exact Hbefore.
  apply re_search_here, match_here_fenced; try assumption.
  now rewrite <- Hop, length_map.
Qed.

(** [re.search] on a response without any opener. *)
Lemma re_search_no_opener (raw : str) :
  find_opener raw = None ->
  re_search sql_fence_flags sql_fence_pattern raw = None.
Proof.
  intros H. apply re_search_none. intros a b Hab.
  now apply (@index_of_none _ raw H a).
Qed.

(** A response without three backticks in a row has no opener. *)
Lemma no_fence_no_opener (raw : str) :
  find fence raw = None -> find_opener raw = None.
Proof.
  unfold find, find_opener. induction raw as [|c raw IH]; intros H.
  - reflexivity.
  - cbn [index_of] in *.
    destruct (startswith fence (c :: raw)) eqn:E; [discriminate|].
    destruct (startswith_ci sql_opener (c :: raw)) eqn:E'.
    + apply opener_starts_with_fence in E'. congruence.
    + destruct (index_of (startswith fence) raw); [discriminate|].
      now rewrite IH.
Qed.

(* ================================================================== *)
(** * The schema introspector *)

Lemma str_items_chars (s : str) :
  str_items (map (fun c => PStr [c]) s) = Some (map (fun c => [c]) s).
Proof.
  induction s as [|c s IH]; simpl; [reflexivity|]. now rewrite IH.
Qed.

(** What [get_schema_from_db] computes when the tables can be read:
    [join] walks the characters of the one string [get_table_info]
    returns. *)
Lemma get_schema_from_db_characters (database : SQLDatabase)
    (log : list event) :
  unreachable database = None ->
  get_schema_from_db database log
  = (Return (join nl
               (map (fun c => [c])
                  (join (nl ++ nl) (table_descriptions database)))),
     log ++ [TableInfo]).
Proof.
  intros H.
  unfold get_schema_from_db, get_table_info, io_bind, lift, ret, str_join.
  rewrite H. simpl. now rewrite str_items_chars.
Qed.

(** When the tables cannot be read, the error of the driver is raised. *)
Lemma get_schema_from_db_unreachable (database : SQLDatabase) (e : exn)
    (log : list event) :
  unreachable database = Some e ->
  get_schema_from_db database log = (Raise e, log ++ [TableInfo]).
Proof.
  intros H. unfold get_schema_from_db, get_table_info, io_bind.
  now rewrite H.
Qed.

(** Reading the schema logs the reading of the tables, and nothing
    else. *)
Lemma get_schema_from_db_trace (database : SQLDatabase) (log : list event) :
  snd (get_schema_from_db database log) = log ++ [TableInfo].
Proof.
  destruct (unreachable database) as [e|] eqn:H.
  - now rewrite (get_schema_from_db_unreachable _ _ H).
  - now rewrite (get_schema_from_db_characters _ _ H).
Qed.

(** C1 (code bug): on a database with the two table descriptions [ab]
    and [c], [get_schema_from_db] does not return the descriptions
    separated by one newline, [ab\nc]; it returns every character of
    [get_table_info()] separated from the next by a newline,
    [a\nb\n\n\n\n\nc]. *)
Theorem C1_newline_between_characters :
  fst (get_schema_from_db sample_db [])
  = Return (of_string "a" ++ nl ++ of_string "b" ++ nl ++ nl ++ nl ++ nl ++ nl
            ++ of_string "c")
  /\ fst (get_schema_from_db sample_db [])
     <> Return (join nl (table_descriptions sample_db)).
Proof. split; [reflexivity|discriminate]. Qed.

(* ================================================================== *)
(** * SQL extraction *)

Lemma get_sql_query_from_question_eq (db : SQLDatabase)
    (llm : str -> pyval -> outcome str) (question : pyval) (raw : str)
    (log log' : list event) :
  sql_chain_invoke db llm question log = (Return raw, log') ->
  get_sql_query_from_question db llm question log
  = match re_search sql_fence_flags sql_fence_pattern raw with
    | Some m =>
        match group1 m with
        | Some text => (Return (strip text), log')
        | None =>
            (Raise (AttributeError
                      "'NoneType' object has no attribute 'strip'"), log')
        end
    | None => (Return raw, log')
    end.
Proof.
  intros H. unfold get_sql_query_from_question, io_bind. rewrite H.
  destruct (re_search sql_fence_flags sql_fence_pattern raw) as [m|];
    [|reflexivity].
  now destruct (group1 m).
Qed.

(** A response without any [```sql] opener comes back as it is. *)
Lemma response_without_opener (db : SQLDatabase)
    (llm : str -> pyval -> outcome str) (question : pyval) (raw : str)
    (log log' : list event) :
  sql_chain_invoke db llm question log = (Return raw, log') ->
  find_opener raw = None ->
  get_sql_query_from_question db llm question log = (Return raw, log').
Proof.
  intros H Hno.
  now rewrite (get_sql_query_from_question_eq _ _ _ _ H), re_search_no_opener.
Qed.

(** The first SQL fence of a response decides the query. *)
Lemma response_with_sql_fence (db : SQLDatabase)
    (llm : str -> pyval -> outcome str) (question : pyval)
    (pre opener body post : str) (log log' : list event) :
  sql_chain_invoke db llm question log
  = (Return (pre ++ opener ++ body ++ fence ++ post), log') ->
  map lower opener = sql_opener ->
  find_opener (pre ++ opener ++ body ++ fence ++ post) = Some (length pre) ->
  find fence (body ++ fence) = Some (length body) ->
  get_sql_query_from_question db llm question log = (Return (strip body), log').
Proof.
  intros H Hop Hfirst Hclose.
  rewrite (get_sql_query_from_question_eq _ _ _ _ H).
  rewrite re_search_first_fence by assumption.
  simpl. now rewrite strip_idempotent.
Qed.

(** C2 (as the claim states it, refuted): the response [ SELECT 1 ] has
    no fence, and the function returns it with its leading and trailing
    blanks, not trimmed. *)
Lemma C2_response_is_not_trimmed :
  find fence (of_string " SELECT 1 ") = None
  /\ fst (get_sql_query_from_question sample_db
            (canned_llm (of_string " SELECT 1 ")) (PStr (of_string "q")) [])
     = Return (of_string " SELECT 1 ")
  /\ strip (of_string " SELECT 1 ") = of_string "SELECT 1".
Proof. repeat split. Qed.

(** C2 (amended): for every raw LLM response that contains no fence (no
    three backticks in a row), [get_sql_query_from_question] returns the
    entire raw response unchanged; it is not trimmed. *)
Theorem C2_no_fence_returns_response_unchanged :
  forall (db : SQLDatabase) (llm : str -> pyval -> outcome str)
         (question : pyval) (raw : str) (log log' : list event),
    sql_chain_invoke db llm question log = (Return raw, log') ->
    find fence raw = None ->
    get_sql_query_from_question db llm question log = (Return raw, log').
Proof.
  intros db llm question raw log log' H Hno.
  apply response_without_opener; [exact H|].
  now apply no_fence_no_opener.
Qed.

Lemma C2_no_fence_witness :
  get_sql_query_from_question sample_db
    (canned_llm (of_string " SELECT 1 ")) (PStr (of_string "q")) []
  = (Return (of_string " SELECT 1 "),
     [TableInfo;
      LLMCall (of_string "a" ++ nl ++ of_string "b" ++ nl ++ nl ++ nl ++ nl ++ nl
               ++ of_string "c")
        (PStr (of_string "q"))]).
Proof.
  apply (@C2_no_fence_returns_response_unchanged sample_db
           (canned_llm (of_string " SELECT 1 ")) (PStr (of_string "q"))
           (of_string " SELECT 1 ") []); reflexivity.
Defined.

(** C3 (as the claim states it, refuted): a fence without a language tag
    is not recognised; the response comes back whole, fence markers
    included, and not as the trimmed interior [SELECT 1]. *)
Lemma C3_plain_fence_is_not_recognised :
  fst (get_sql_query_from_question sample_db
         (canned_llm plain_fence_response) (PStr (of_string "q")) [])
  = Return plain_fence_response
  /\ strip (nl ++ of_string "SELECT 1" ++ nl) = of_string "SELECT 1"
  /\ plain_fence_response <> of_string "SELECT 1".
Proof. repeat split. discriminate. Qed.

(** C3 (amended): for every raw LLM response whose first fence opener
    carries the language tag [sql] in any letter case (the tag is
    required) and is followed by a closing fence,
    [get_sql_query_from_question] returns exactly the text between that
    opener and the first fence after it, with leading and trailing white
    space trimmed, whatever text precedes the opener or follows the
    closing fence. *)
Theorem C3_sql_fence_interior_trimmed :
  forall (db : SQLDatabase) (llm : str -> pyval -> outcome str)
         (question : pyval) (pre opener body post : str)
         (log log' : list event),
    sql_chain_invoke db llm question log
    = (Return (pre ++ opener ++ body ++ fence ++ post), log') ->
    map lower opener = sql_opener ->
    find_opener (pre ++ opener ++ body ++ fence ++ post) = Some (length pre) ->
    find fence (body ++ fence) = Some (length body) ->
    get_sql_query_from_question db llm question log
    = (Return (strip body), log').
Proof.
  intros. now apply response_with_sql_fence with (pre := pre) (opener := opener)
                      (post := post).
Qed.

Lemma C3_sql_fence_witness :
  fst (get_sql_query_from_question sample_db
         (canned_llm (of_string "Here: " ++ of_string "```Sql"
                      ++ (nl ++ of_string "SELECT COUNT(*) FROM users;" ++ nl)
                      ++ fence ++ of_string " Done."))
         (PStr (of_string "q")) [])
  = Return (of_string "SELECT COUNT(*) FROM users;").
Proof.
  refine (f_equal fst
    (@C3_sql_fence_interior_trimmed sample_db _ (PStr (of_string "q"))
       (of_string "Here: ") (of_string "```Sql")
       (nl ++ of_string "SELECT COUNT(*) FROM users;" ++ nl)
       (of_string " Done.") [] _ _ _ _ _)); reflexivity.
Defined.

(** C10: for every raw LLM response with two (or more) fenced SQL blocks,
    [get_sql_query_from_question] returns the trimmed interior of the
    first one, which ends at the first fence after its opener; the later
    block and the text around it have no influence. *)
Theorem C10_first_sql_fence_wins :
  forall (db : SQLDatabase) (llm : str -> pyval -> outcome str)
         (question : pyval)
         (pre opener1 body1 between opener2 body2 post : str)
         (log log' : list event),
    let raw := pre ++ opener1 ++ body1 ++ fence
               ++ between ++ opener2 ++ body2 ++ fence ++ post in
    sql_chain_invoke db llm question log = (Return raw, log') ->
    map lower opener1 = sql_opener ->
    map lower opener2 = sql_opener ->
    find_opener raw = Some (length pre) ->
    find fence (body1 ++ fence) = Some (length body1) ->
    get_sql_query_from_question db llm question log
    = (Return (strip body1), log').
Proof.
  intros db llm question pre opener1 body1 between opener2 body2 post
         log log' raw H Hop1 _ Hfirst Hclose.
  now apply response_with_sql_fence with (pre := pre) (opener := opener1)
        (post := between ++ opener2 ++ body2 ++ fence ++ post).
Qed.

Lemma C10_first_sql_fence_witness :
  fst (get_sql_query_from_question sample_db
         (canned_llm two_fence_response) (PStr (of_string "q")) [])
  = Return (of_string "SELECT `a` FROM t;").
Proof.
  refine (f_equal fst
    (@C10_first_sql_fence_wins sample_db _ (PStr (of_string "q"))
       (of_string "Try ") (of_string "```SQL")
       (nl ++ of_string "SELECT `a` FROM t;" ++ nl)
       (of_string " or ") (of_string "```sql") (of_string " SELECT 2 ")
       (of_string " instead.") [] _ _ _ _ _ _)); reflexivity.
Defined.

(* ================================================================== *)
(** * The result normaliser *)

Section Normaliser.
Variable literal_eval : str -> outcome pyval.

(** A value that is not a string passes lines 71-82 untouched. *)
Lemma parse_string_other (results : pyval) :
  isinstance_str results = false ->
  parse_string literal_eval results = GoesOn results.
Proof. destruct results; simpl; intros H; try reflexivity. discriminate. Qed.

(** A truthy value that is neither a string nor a list is a single
    value. *)
Lemma parse_results_scalar (results : pyval) :
  truthy results = true ->
  isinstance_str results = false ->
  isinstance_list results = false ->
  parse_results literal_eval results = Return (tagged "single" results).
Proof.
  intros Ht Hs Hl. unfold parse_results.
  rewrite Ht, parse_string_other by exact Hs. simpl.
  destruct results; try reflexivity. discriminate.
Qed.

(** A falsy value is reported as empty, whatever its type. *)
Lemma parse_results_falsy (results : pyval) :
  truthy results = false ->
  parse_results literal_eval results = Return (tagged "empty" PNone).
Proof. intros H. unfold parse_results. now rewrite H. Qed.

(** A list of two or more rows is never a single value. *)
Lemma classify_rows (r1 r2 : pyval) (rows : list pyval) :
  classify (PList (r1 :: r2 :: rows))
  = Return (if forallb isinstance_tuple (r1 :: r2 :: rows)
            then tagged "table" (PList (r1 :: r2 :: rows))
            else tagged "list" (PList (r1 :: r2 :: rows))).
Proof.
  unfold classify. cbn [length Nat.eqb bind].
  now destruct (forallb isinstance_tuple (r1 :: r2 :: rows)).
Qed.
End Normaliser.

(** The scenarios of the specification that do not depend on what
    [ast.literal_eval] accepts: [[]], [[(1, "a"), (2, "b")]] and the
    string [Unparseable garbage]. *)
Lemma parse_results_scenarios (literal_eval : str -> outcome pyval) :
  parse_results literal_eval (PList []) = Return (tagged "empty" PNone)
  /\ parse_results literal_eval
       (PList [PTuple [PInt 1; PStr (of_string "a")];
               PTuple [PInt 2; PStr (of_string "b")]])
     = Return (tagged "table"
                 (PList [PTuple [PInt 1; PStr (of_string "a")];
                         PTuple [PInt 2; PStr (of_string "b")]]))
  /\ parse_results literal_eval (PStr (of_string "Unparseable garbage"))
     = Return (tagged "text" (PStr (of_string "Unparseable garbage"))).
Proof. repeat split. Qed.

(** C4 (code bug): [parse_results] is not total.  On the list [[42]],
    one element that is not a row, line 88 calls [len] on the integer and
    the call raises [TypeError]; no variant is returned. *)
Theorem C4_list_of_one_scalar_raises :
  forall literal_eval : str -> outcome pyval,
    parse_results literal_eval (PList [PInt 42])
    = Raise (TypeError (of_string "object of type 'int' has no len()")).
Proof. reflexivity. Qed.

(** C5 (as the claim states it, refuted): on the input [ [x] ], blanks
    around a bracketed text that is no literal, the text variant carries
    the stripped string [[x]] and not the raw input. *)
Lemma C5_text_payload_is_stripped :
  (forall (literal_eval : str -> outcome pyval) (e : exn),
      literal_eval (of_string "[x]") = Raise e ->
      parse_results literal_eval (PStr (of_string " [x] "))
      = Return (tagged "text" (PStr (of_string "[x]"))))
  /\ tagged "text" (PStr (of_string "[x]"))
     <> tagged "text" (PStr (of_string " [x] ")).
Proof.
  split; [|discriminate].
  intros literal_eval e H. unfold parse_results, parse_string.
  change (strip (of_string " [x] ")) with (of_string "[x]").
  now rewrite H.
Qed.

(** C5 (amended): for every non-empty input string that, after trimming,
    starts with [[] and ends with []] but fails to parse as a literal,
    [parse_results] returns the text variant carrying the trimmed string
    (the input with its leading and trailing white space removed); the
    parse failure is recovered locally and not raised. *)
Theorem C5_parse_failure_yields_trimmed_text :
  forall (literal_eval : str -> outcome pyval) (raw : str) (e : exn),
    raw <> [] ->
    startswith (of_string "[") (strip raw) = true ->
    endswith (of_string "]") (strip raw) = true ->
    literal_eval (strip raw) = Raise e ->
    parse_results literal_eval (PStr raw)
    = Return (tagged "text" (PStr (strip raw))).
Proof.
  intros literal_eval raw e Hraw Hopen Hclose Hfail.
  unfold parse_results, parse_string.
  destruct raw as [|c raw]; [contradiction|].
  cbn [truthy length Nat.eqb negb].
  now rewrite Hopen, Hclose, Hfail.
Qed.

Lemma C5_parse_failure_witness :
  parse_results rejecting_eval (PStr (of_string " [x] "))
  = Return (tagged "text" (PStr (of_string "[x]"))).
Proof.
  apply (@C5_parse_failure_yields_trimmed_text rejecting_eval
           (of_string " [x] ")
           (Exception (of_string "ValueError")
              (of_string "malformed node or string")));
    [discriminate|reflexivity|reflexivity|reflexivity].
Defined.

(** C6: for every list with exactly one row, the row a tuple (or a list)
    with exactly one column, [parse_results] returns the single variant
    with that one value as payload, and not a one-row table; in
    particular [[(42,)]] gives [{type: single, data: 42}]. *)
Theorem C6_one_row_one_column_is_single :
  forall (literal_eval : str -> outcome pyval) (row value : pyval),
    row = PTuple [value] \/ row = PList [value] ->
    parse_results literal_eval (PList [row]) = Return (tagged "single" value)
    /\ parse_results literal_eval (PList [row])
       <> Return (tagged "table" (PList [row])).
Proof.
  intros literal_eval row value [-> | ->]; split;
    solve [reflexivity | discriminate].
Qed.

Lemma C6_count_witness :
  parse_results rejecting_eval (PList [PTuple [PInt 42]])
  = Return (tagged "single" (PInt 42))
  /\ parse_results rejecting_eval (PList [PTuple [PInt 42]])
     <> Return (tagged "table" (PList [PTuple [PInt 42]])).
Proof.
  apply (@C6_one_row_one_column_is_single rejecting_eval
           (PTuple [PInt 42]) (PInt 42)).
  left. reflexivity.
Defined.

(** C7: for every list of two or more rows in which every row is a
    tuple, one-column tuples included, [parse_results] returns the table
    variant with the list of rows as payload, not the list variant. *)
Theorem C7_tuple_rows_are_a_table :
  forall (literal_eval : str -> outcome pyval) (rows : list pyval),
    2 <= length rows ->
    forallb isinstance_tuple rows = true ->
    parse_results literal_eval (PList rows)
    = Return (tagged "table" (PList rows)).
Proof.
  intros literal_eval rows Hlen Hrows.
  destruct rows as [|r1 [|r2 rows]]; simpl in Hlen; try lia.
  unfold parse_results. cbn [truthy length Nat.eqb negb parse_string].
  now rewrite classify_rows, Hrows.
Qed.

Lemma C7_one_column_rows_witness :
  parse_results rejecting_eval
    (PList [PTuple [PStr (of_string "x")]; PTuple [PStr (of_string "y")]])
  = Return (tagged "table"
              (PList [PTuple [PStr (of_string "x")];
                      PTuple [PStr (of_string "y")]])).
Proof.
  apply (@C7_tuple_rows_are_a_table rejecting_eval
           [PTuple [PStr (of_string "x")]; PTuple [PStr (of_string "y")]]).
  - apply le_n.
  - reflexivity.
Defined.

(** C8 (code bug): the bare scalar [0] is neither empty, null nor of
    length zero, yet line 67 tests its truth value and [parse_results]
    reports it as the empty variant instead of [{type: single, data: 0}];
    the same value inside a one-row, one-column result is reported as
    single. *)
Theorem C8_scalar_zero_is_reported_empty :
  forall literal_eval : str -> outcome pyval,
    parse_results literal_eval (PInt 0) = Return (tagged "empty" PNone)
    /\ parse_results literal_eval (PList [PTuple [PInt 0]])
       = Return (tagged "single" (PInt 0)).
Proof. intros literal_eval. split; reflexivity. Qed.

(* ================================================================== *)
(** * The [/query] handler *)

(** A body that is JSON but no object has no method [get]: the handler
    answers 500, without any external call. *)
Lemma query_body_not_an_object (db : SQLDatabase)
    (llm : str -> pyval -> outcome str)
    (literal_eval : str -> outcome pyval)
    (json_error : pyval -> option exn) (log : list event) :
  query db llm literal_eval json_error (Return (PList [])) log
  = (Return {| body := dict_of
                 [("success", PBool false);
                  ("error", PStr (of_string "'list' object has no attribute 'get'"))];
               status := 500 |},
     log).
Proof. reflexivity. Qed.

(** C9 (as the claim states it, refuted): the JSON bodies [null] and
    [[]] lack the field [question], yet the handler does not answer 400:
    [data.get] raises [AttributeError] at line 109 and the handler
    answers 500 with the message of that exception. *)
Lemma C9_body_without_fields_is_500 :
  query sample_db (canned_llm (of_string "SELECT 1")) rejecting_eval
    lenient_json (Return PNone) []
  = (Return {| body := dict_of
                 [("success", PBool false);
                  ("error", PStr (of_string
                                    "'NoneType' object has no attribute 'get'"))];
               status := 500 |},
     [])
  /\ query sample_db (canned_llm (of_string "SELECT 1")) rejecting_eval
       lenient_json (Return (PList [])) []
     = (Return {| body := dict_of
                    [("success", PBool false);
                     ("error", PStr (of_string
                                       "'list' object has no attribute 'get'"))];
                  status := 500 |},
        [])
  /\ 500%Z <> 400%Z.
Proof. repeat split. discriminate. Qed.

(** C9 (amended): for every request whose JSON body is an object without
    the field [question], or with a question that is empty (a falsy
    value, the empty string in particular), the handler answers with
    status 400 and the body [{"error": "Question is required"}], and the
    trace of external calls is left as it was: neither the tables are
    read, nor the LLM chain or the database invoked.  This holds
    whatever the JSON provider does on other payloads. *)
Theorem C9_question_is_required :
  forall (db : SQLDatabase) (llm : str -> pyval -> outcome str)
         (literal_eval : str -> outcome pyval)
         (json_error : pyval -> option exn)
         (entries : list (pyval * pyval)) (log : list event),
    dict_lookup (key_is_str (of_string "question")) entries = None
    \/ (exists q, dict_lookup (key_is_str (of_string "question")) entries = Some q
                  /\ truthy q = false) ->
    query db llm literal_eval json_error (Return (PDict entries)) log
    = (Return {| body := dict_of [("error", PStr (of_string "Question is required"))];
                 status := 400 |},
       log).
Proof.
  intros db llm literal_eval json_error entries log H.
  unfold query, try_except, io_bind, lift, dict_get.
  destruct H as [H | [q [H Hq]]]; rewrite H.
  - reflexivity.
  - now rewrite Hq.
Qed.

Lemma C9_question_is_required_witness :
  query sample_db (canned_llm (of_string "SELECT 1")) rejecting_eval
    refusing_json (Return (dict_of [("question", PStr [])])) []
  = (Return {| body := dict_of [("error", PStr (of_string "Question is required"))];
               status := 400 |},
     [])
  /\ query sample_db (canned_llm (of_string "SELECT 1")) rejecting_eval
       refusing_json (Return (dict_of [])) []
     = (Return {| body := dict_of [("error", PStr (of_string "Question is required"))];
                  status := 400 |},
        []).
Proof.
  split.
  - apply (@C9_question_is_required sample_db (canned_llm (of_string "SELECT 1"))
             rejecting_eval refusing_json
             [(PStr (of_string "question"), PStr [])] []).
    right. exists (PStr []). split; reflexivity.
  - apply (@C9_question_is_required sample_db (canned_llm (of_string "SELECT 1"))
             rejecting_eval refusing_json [] []).
    left. reflexivity.
Defined.

(* ================================================================== *)
(** * SQL extraction, in full *)

Lemma index_of_spec (here : str -> bool) (s : str) (n : nat) :
  index_of here s = Some n ->
  here (skipn n s) = true
  /\ (forall i, i < n -> here (skipn i s) = false)
  /\ n <= length s.
Proof.
  revert n. induction s as [|c s IH]; intros n H; cbn [index_of] in H.
  - destruct (here []) eqn:E; [|discriminate].
    injection H as <-. repeat split; [exact E|lia|lia].
  - destruct (here (c :: s)) eqn:E.
    + injection H as <-. repeat split; [exact E|lia|simpl; lia].
    + destruct (index_of here s) as [m|]; [|discriminate].
      injection H as <-. destruct (IH m eq_refl) as [H1 [H2 H3]].
      repeat split; [exact H1| |simpl; lia].
      intros [|i] Hi; [exact E|]. apply H2. lia.
Qed.

Lemma index_of_none_skipn (here : str -> bool) (s : str) (i : nat) :
  index_of here s = None -> here (skipn i s) = false.
Proof.
  intros H. apply (@index_of_none here s H (firstn i s)).
  symmetry. apply firstn_skipn.
Qed.

Lemma index_of_none_intro (here : str -> bool) (s : str) :
  (forall i, here (skipn i s) = false) -> index_of here s = None.
Proof.
  induction s as [|c s IH]; intros H; cbn [index_of].
  - pose proof (H 0) as H0. simpl in H0. now rewrite H0.
  - pose proof (H 0) as H0. simpl in H0. rewrite H0, IH; [reflexivity|].
    intros i. apply (H (S i)).
Qed.

(** What follows a text without fence has no fence either. *)
Lemma find_none_skipn (p s : str) (k : nat) :
  find p s = None -> find p (skipn k s) = None.
Proof.
  intros H. apply index_of_none_intro. intros i.
  rewrite skipn_skipn. now apply index_of_none_skipn.
Qed.

Lemma startswith_true (p s : str) :
  startswith p s = true -> s = p ++ skipn (length p) s.
Proof.
  revert s. induction p as [|x p IH]; intros s H; [reflexivity|].
  destruct s as [|y s]; [discriminate|].
  cbn [startswith] in H. apply andb_true_iff in H as [H1 H2].
  apply Ascii.eqb_eq in H1 as <-. simpl. f_equal. now apply IH.
Qed.

Lemma startswith_ci_length (p s : str) :
  startswith_ci p s = true -> length p <= length s.
Proof.
  revert s. induction p as [|x p IH]; intros s H; simpl; [lia|].
  destruct s as [|y s]; [discriminate|].
  cbn [startswith_ci] in H. apply andb_true_iff in H as [_ H].
  apply IH in H. simpl. lia.
Qed.

(** The first fence of a text cuts it into what is before the fence, the
    fence and the rest. *)
Lemma find_fence_split (s : str) (n : nat) :
  find fence s = Some n ->
  exists post,
    s = firstn n s ++ fence ++ post
    /\ length (firstn n s) = n
    /\ forall a b, firstn n s = a ++ b -> b <> [] ->
                   startswith fence (b ++ fence) = false.
Proof.
  intros H. apply index_of_spec in H as [Hhere [Hbefore Hlen]].
  apply startswith_true in Hhere.
  assert (Hn : length (firstn n s) = n) by now apply firstn_length_le.
  assert (Hs : s = firstn n s ++ fence ++ skipn (length fence) (skipn n s)).
  { rewrite <- Hhere. symmetry. apply firstn_skipn. }
  revert Hn Hs.
  generalize (firstn n s) (skipn (length fence) (skipn n s)).
  intros body post Hn Hs. exists post.
  split; [exact Hs|]. split; [exact Hn|].
  intros a b Hab Hb.
  assert (Hi : length a < n).
  { rewrite <- Hn, Hab, length_app. destruct b; [easy|simpl; lia]. }
  specialize (Hbefore _ Hi).
  rewrite Hs, Hab, <- app_assoc, (skipn_front _ _ eq_refl) in Hbefore.
  rewrite app_assoc in Hbefore.
  rewrite startswith_app_long in Hbefore; [exact Hbefore|].
  rewrite length_app. simpl. lia.
Qed.

Lemma star_greedy_none (R : Type) (p : ascii -> bool) (s : str)
    (k : str -> option R) :
  (forall a b, s = a ++ b -> k b = None) -> star_greedy p s k = None.
Proof.
  induction s as [|c s IH]; intros H; cbn [star_greedy].
  - apply (H []). reflexivity.
  - rewrite IH by (intros a b ->; now apply (H (c :: a))).
    rewrite (H [] (c :: s) eq_refl). now destruct (p c).
Qed.

Lemma star_lazy_none (R : Type) (p : ascii -> bool) (s : str)
    (k : str -> option R) :
  (forall a b, s = a ++ b -> k b = None) -> star_lazy p s k = None.
Proof.
  induction s as [|c s IH]; intros H; cbn [star_lazy].
  - now rewrite (H [] [] eq_refl).
  - rewrite (H [] (c :: s) eq_refl).
    rewrite IH by (intros a b ->; now apply (H (c :: a))).
    now destruct (p c).
Qed.

Lemma rmatch_group (R : Type) (s : str) (g : option str)
    (k : str -> option str -> option R) :
  rmatch sql_fence_flags (Group (StarLazy Dot)) s g k
  = star_lazy (atom_matches sql_fence_flags Dot) s
      (fun s' => k s' (Some (firstn (length s - length s') s))).
Proof. reflexivity. Qed.

(** An opener that no fence follows does not match. *)
Lemma match_here_unterminated (s : str) :
  startswith_ci sql_opener s = true ->
  find fence (skipn 6 s) = None ->
  match_here sql_fence_flags sql_fence_pattern s = None.
Proof.
  intros Hop Hno. unfold match_here, sql_fence_pattern.
  rewrite rmatch_seq, literal_spec, Hop, rmatch_seq, rmatch_spaces.
  change (length sql_opener) with 6.
  apply star_greedy_none. intros a b Hab.
  rewrite rmatch_seq, rmatch_group.
  apply star_lazy_none. intros a' b' Hab'.
  rewrite closing_fence_spec.
  destruct (lstrip_split b') as [w [_ Hw]].
  rewrite (@index_of_none (startswith fence) (skipn 6 s) Hno (a ++ a' ++ w));
    [reflexivity|].
  rewrite Hab, Hab'. rewrite Hw at 1. now rewrite <- !app_assoc.
Qed.

(** The match at one position, without the matcher. *)
Lemma match_here_spec (s : str) :
  match_here sql_fence_flags sql_fence_pattern s
  = match block_at s with
    | Some interior =>
        Some {| group0 := firstn 6 s ++ interior ++ fence;
                group1 := Some (strip interior) |}
    | None => None
    end.
Proof.
  unfold block_at.
  destruct (startswith_ci sql_opener s) eqn:Hop;
    [|now apply match_here_needs_opener].
  destruct (find fence (skipn 6 s)) as [n|] eqn:Hf; cbn [option_map];
    [|now apply match_here_unterminated].
  destruct (find_fence_split _ Hf) as [post [Hs [_ Hin]]].
  assert (Hlen : length (firstn 6 s) = length sql_opener).
  { apply startswith_ci_length in Hop. now apply firstn_length_le. }
  assert (Hwhole : s = firstn 6 s ++ firstn n (skipn 6 s) ++ fence ++ post).
  { rewrite <- Hs. symmetry. apply firstn_skipn. }
  rewrite Hwhole at 1.
  apply match_here_fenced; [exact Hlen| |exact Hin].
  now rewrite <- Hwhole.
Qed.

(** [re.search], without the matcher: the group is the trimmed interior
    of the leftmost block. *)
Lemma re_search_spec (s : str) :
  option_map group1 (re_search sql_fence_flags sql_fence_pattern s)
  = option_map (fun interior => Some (strip interior)) (first_block s).
Proof.
  induction s as [|c s IH]; cbn [re_search first_block];
    rewrite match_here_spec.
  - now destruct (block_at []).
  - destruct (block_at (c :: s)); [reflexivity|exact IH].
Qed.

Lemma extraction_of_response (db : SQLDatabase)
    (llm : str -> pyval -> outcome str) (question : pyval) (raw : str)
    (log log' : list event) :
  sql_chain_invoke db llm question log = (Return raw, log') ->
  get_sql_query_from_question db llm question log
  = (Return (extract_sql raw), log').
Proof.
  intros H. rewrite (get_sql_query_from_question_eq _ _ _ _ H).
  pose proof (re_search_spec raw) as Hs. unfold extract_sql.
  destruct (re_search sql_fence_flags sql_fence_pattern raw) as [m|];
    destruct (first_block raw) as [interior|]; try discriminate Hs.
  - injection Hs as ->. now rewrite strip_idempotent.
  - reflexivity.
Qed.

Lemma get_schema_from_db_outcome (database : SQLDatabase)
    (log : list event) (c : outcome str) :
  fst (get_schema_from_db database log) = c ->
  get_schema_from_db database log = (c, log ++ [TableInfo]).
Proof.
  intros <-. rewrite <- (get_schema_from_db_trace database log).
  apply surjective_pairing.
Qed.

(** The whole of lines 52-58, given the schema of the moment. *)
Lemma get_sql_query_from_question_full (db : SQLDatabase)
    (llm : str -> pyval -> outcome str) (question : pyval) (schema : str)
    (log : list event) :
  fst (get_schema_from_db db log) = Return schema ->
  get_sql_query_from_question db llm question log
  = (match llm schema question with
     | Return raw => Return (extract_sql raw)
     | Raise e => Raise e
     end,
     log ++ [TableInfo; LLMCall schema question]).
Proof.
  intros Hschema. apply get_schema_from_db_outcome in Hschema.
  replace (log ++ [TableInfo; LLMCall schema question])
    with ((log ++ [TableInfo]) ++ [LLMCall schema question])
    by now rewrite <- app_assoc.
  destruct (llm schema question) as [raw|e] eqn:Hllm.
  - apply extraction_of_response.
    unfold sql_chain_invoke, io_bind. now rewrite Hschema, Hllm.
  - unfold get_sql_query_from_question, sql_chain_invoke, io_bind.
    now rewrite Hschema, Hllm.
Qed.

(** When the tables cannot be read, the chain stops there: the error is
    raised and the model is not asked. *)
Lemma get_sql_query_from_question_no_schema (db : SQLDatabase)
    (llm : str -> pyval -> outcome str) (question : pyval) (e : exn)
    (log : list event) :
  fst (get_schema_from_db db log) = Raise e ->
  get_sql_query_from_question db llm question log
  = (Raise e, log ++ [TableInfo]).
Proof.
  intros Hschema. apply get_schema_from_db_outcome in Hschema.
  unfold get_sql_query_from_question, sql_chain_invoke, io_bind.
  now rewrite Hschema.
Qed.

(** X1: once the schema has been read, [get_sql_query_from_question]
    asks the model once, with the schema of the moment, and logs that
    call whatever comes back; an error of the model is raised unchanged;
    a response is reduced to [extract_sql] of it, that is, to the trimmed
    interior of its leftmost SQL block, or to the response itself when it
    has no such block.  The function raises nothing of its own. *)
Theorem X1_get_sql_query_from_question_spec :
  forall (db : SQLDatabase) (llm : str -> pyval -> outcome str)
         (question : pyval) (schema : str) (log : list event),
    fst (get_schema_from_db db log) = Return schema ->
    get_sql_query_from_question db llm question log
    = (match llm schema question with
       | Return raw => Return (extract_sql raw)
       | Raise e => Raise e
       end,
       log ++ [TableInfo; LLMCall schema question]).
Proof.
  intros db llm question schema log Hschema.
  now apply get_sql_query_from_question_full.
Qed.

Lemma X1_witness :
  get_sql_query_from_question sample_db (canned_llm two_fence_response)
    (PStr (of_string "q")) []
  = (Return (of_string "SELECT `a` FROM t;"),
     [TableInfo; LLMCall sample_schema (PStr (of_string "q"))]).
Proof.
  exact (@X1_get_sql_query_from_question_spec sample_db
           (canned_llm two_fence_response) (PStr (of_string "q"))
           sample_schema [] eq_refl).
Defined.

Lemma first_block_none (s : str) :
  (forall i, block_at (skipn i s) = None) -> first_block s = None.
Proof.
  induction s as [|c s IH]; intros H; cbn [first_block];
    pose proof (H 0) as H0; simpl in H0; rewrite H0; [reflexivity|].
  apply IH. intros i. apply (H (S i)).
Qed.

(** Without a fence after the first opener there is no block. *)
Lemma first_block_unterminated (raw : str) (n : nat) :
  find_opener raw = Some n ->
  find fence (skipn (n + 6) raw) = None ->
  first_block raw = None.
Proof.
  intros Hop Hno. apply index_of_spec in Hop as [_ [Hbefore _]].
  apply first_block_none. intros i. unfold block_at.
  destruct (startswith_ci sql_opener (skipn i raw)) eqn:E; [|reflexivity].
  assert (Hi : n <= i).
  { destruct (Nat.le_gt_cases n i) as [Hle|Hlt]; [exact Hle|].
    rewrite (Hbefore _ Hlt) in E. discriminate. }
  rewrite skipn_skipn.
  replace (6 + i) with ((i - n) + (n + 6)) by lia.
  rewrite <- skipn_skipn, find_none_skipn by exact Hno. reflexivity.
Qed.

(** X2: a response whose first SQL opener is not followed by any closing
    fence (the answer was cut off, say) comes back whole and unchanged,
    opener included; nothing is extracted and nothing is trimmed. *)
Theorem X2_unterminated_fence_is_returned_whole :
  forall (db : SQLDatabase) (llm : str -> pyval -> outcome str)
         (question : pyval) (raw : str) (n : nat) (log log' : list event),
    sql_chain_invoke db llm question log = (Return raw, log') ->
    find_opener raw = Some n ->
    find fence (skipn (n + 6) raw) = None ->
    get_sql_query_from_question db llm question log = (Return raw, log').
Proof.
  intros db llm question raw n log log' H Hop Hno.
  rewrite (extraction_of_response _ _ _ _ H). unfold extract_sql.
  now rewrite (first_block_unterminated _ Hop Hno).
Qed.

Lemma X2_witness :
  fst (get_sql_query_from_question sample_db
         (canned_llm (of_string "Sure: ```sql SELECT 1 "))
         (PStr (of_string "q")) [])
  = Return (of_string "Sure: ```sql SELECT 1 ").
Proof.
  refine (f_equal fst
    (@X2_unterminated_fence_is_returned_whole sample_db _
       (PStr (of_string "q")) (of_string "Sure: ```sql SELECT 1 ") 6
       [] _ _ _ _)); reflexivity.
Defined.

Lemma substring_refl (s : str) : substring s s.
Proof. exists [], []. now rewrite app_nil_r. Qed.

Lemma substring_trans (x y z : str) :
  substring x y -> substring y z -> substring x z.
Proof.
  intros [a [b ->]] [c [d ->]]. exists (c ++ a), (b ++ d).
  now rewrite <- !app_assoc.
Qed.

Lemma substring_strip (s : str) : substring (strip s) s.
Proof.
  destruct (strip_split s) as [w0 [w1 [_ [_ [_ H]]]]]. now exists w0, w1.
Qed.

Lemma substring_first_block (s interior : str) :
  first_block s = Some interior -> substring interior s.
Proof.
  induction s as [|c s IH]; cbn [first_block]; intros H.
  - destruct (block_at []) eqn:E; [|discriminate]. injection H as ->.
    unfold block_at in E. simpl in E. discriminate.
  - destruct (block_at (c :: s)) as [x|] eqn:E.
    + injection H as ->. unfold block_at in E.
      destruct (startswith_ci sql_opener (c :: s)); [|discriminate].
      destruct (find fence (skipn 6 (c :: s))) as [n|]; [|discriminate].
      injection E as <-.
      exists (firstn 6 (c :: s)), (skipn n (skipn 6 (c :: s))).
      now rewrite !firstn_skipn.
    + destruct (IH H) as [a [b ->]]. now exists (c :: a), b.
Qed.

(** X3: whatever the model answers, the query that
    [get_sql_query_from_question] returns is a run of consecutive
    characters of the raw response: the extraction only cuts, it adds
    and rewrites nothing, and it does not raise. *)
Theorem X3_query_is_part_of_the_response :
  forall (db : SQLDatabase) (llm : str -> pyval -> outcome str)
         (question : pyval) (raw : str) (log log' : list event),
    sql_chain_invoke db llm question log = (Return raw, log') ->
    exists sql_query,
      get_sql_query_from_question db llm question log
      = (Return sql_query, log')
      /\ substring sql_query raw.
Proof.
  intros db llm question raw log log' H.
  exists (extract_sql raw). split; [now apply extraction_of_response|].
  unfold extract_sql. destruct (first_block raw) as [interior|] eqn:E.
  - apply substring_trans with (y := interior);
      [apply substring_strip|now apply substring_first_block].
  - apply substring_refl.
Qed.

Lemma X3_witness :
  exists sql_query,
    get_sql_query_from_question sample_db (canned_llm two_fence_response)
      (PStr (of_string "q")) []
    = (Return sql_query, [TableInfo; LLMCall sample_schema (PStr (of_string "q"))])
    /\ substring sql_query two_fence_response.
Proof.
  exact (@X3_query_is_part_of_the_response sample_db
           (canned_llm two_fence_response) (PStr (of_string "q"))
           two_fence_response [] _ eq_refl).
Defined.

(* ================================================================== *)
(** * The schema text, in full *)

Lemma join_chars_cons (c d : ascii) (s : str) :
  join nl (map (fun x => [x]) (c :: d :: s))
  = c :: newline :: join nl (map (fun x => [x]) (d :: s)).
Proof. reflexivity. Qed.

Lemma join_chars_length (s : str) :
  length (join nl (map (fun x => [x]) s)) = 2 * length s - 1.
Proof.
  induction s as [|c [|d s] IH]; [reflexivity|reflexivity|].
  rewrite join_chars_cons. cbn [length] in *. lia.
Qed.

Lemma join_chars_even (s : str) (i : nat) :
  nth_error (join nl (map (fun x => [x]) s)) (2 * i) = nth_error s i.
Proof.
  revert i. induction s as [|c [|d s] IH]; intros i.
  - now destruct i.
  - destruct i as [|i]; [reflexivity|].
    replace (2 * S i) with (S (S (2 * i))) by lia. simpl. now destruct i.
  - destruct i as [|i]; [reflexivity|].
    replace (2 * S i) with (S (S (2 * i))) by lia.
    rewrite join_chars_cons. cbn [nth_error]. apply IH.
Qed.

Lemma join_chars_odd (s : str) (i : nat) :
  i + 1 < length s ->
  nth_error (join nl (map (fun x => [x]) s)) (2 * i + 1) = Some newline.
Proof.
  revert i. induction s as [|c [|d s] IH]; intros i H; simpl in H; try lia.
  rewrite join_chars_cons. destruct i as [|i]; [reflexivity|].
  replace (2 * S i + 1) with (S (S (2 * i + 1))) by lia.
  cbn [nth_error]. apply IH. simpl. lia.
Qed.

Lemma get_table_info_returns (database : SQLDatabase) (log : list event)
    (info : str) :
  fst (get_table_info database log) = Return (PStr info) ->
  unreachable database = None
  /\ info = join (nl ++ nl) (table_descriptions database).
Proof.
  unfold get_table_info. cbn [fst].
  destruct (unreachable database); [discriminate|].
  intros H. injection H as <-. now split.
Qed.

(** X4: when [get_table_info()] returns the text [info],
    [get_schema_from_db] returns that text with one newline put between
    every two consecutive characters: character [i] of the table info
    sits at position [2 i], every odd position holds a newline, and the
    schema is [2 n - 1] characters long for a table info of [n]
    characters (empty for a database without tables).  The call has read
    the tables once. *)
Theorem X4_schema_interleaves_newlines :
  forall (database : SQLDatabase) (log : list event) (info : str),
    fst (get_table_info database log) = Return (PStr info) ->
    exists schema,
      get_schema_from_db database log = (Return schema, log ++ [TableInfo])
      /\ length schema = 2 * length info - 1
      /\ (forall i, nth_error schema (2 * i) = nth_error info i)
      /\ (forall i, i + 1 < length info ->
                    nth_error schema (2 * i + 1) = Some newline).
Proof.
  intros database log info H.
  apply get_table_info_returns in H as [Hread ->].
  exists (join nl (map (fun c => [c])
                     (join (nl ++ nl) (table_descriptions database)))).
  split; [now apply get_schema_from_db_characters|].
  split; [apply join_chars_length|].
  split; [apply join_chars_even|apply join_chars_odd].
Qed.

Lemma X4_witness :
  exists schema,
    get_schema_from_db sample_db [] = (Return schema, [TableInfo])
    /\ length schema = 2 * length (of_string "ab" ++ nl ++ nl ++ of_string "c") - 1
    /\ (forall i, nth_error schema (2 * i)
                  = nth_error (of_string "ab" ++ nl ++ nl ++ of_string "c") i)
    /\ (forall i, i + 1 < length (of_string "ab" ++ nl ++ nl ++ of_string "c") ->
                  nth_error schema (2 * i + 1) = Some newline).
Proof.
  exact (@X4_schema_interleaves_newlines sample_db []
           (of_string "ab" ++ nl ++ nl ++ of_string "c") eq_refl).
Defined.

(* ================================================================== *)
(** * The result normaliser, in full *)

Lemma return_inj (A : Type) (a b : A) : Return a = Return b -> a = b.
Proof. congruence. Qed.

Lemma tagged_inj (t1 t2 : string) (d1 d2 : pyval) :
  tagged t1 d1 = tagged t2 d2 -> of_string t1 = of_string t2 /\ d1 = d2.
Proof.
  unfold tagged, dict_of. cbn [map fst snd]. intros H.
  injection H as H1 H2. now split.
Qed.

(** Lines 85-99 produce one of four tags, never [text]. *)
Lemma classify_shape (v x : pyval) :
  classify v = Return x ->
  exists tag d,
    x = tagged tag d
    /\ (tag = "empty" \/ tag = "single" \/ tag = "list" \/ tag = "table")%string.
Proof.
  intros H.
  destruct v;
    try (injection H as <-; eexists "single"%string, _; split;
         [reflexivity|tauto]).
  destruct items as [|r [|r2 rows]].
  - injection H as <-. exists "empty"%string, PNone. split; [reflexivity|tauto].
  - unfold classify in H. cbn [length Nat.eqb subscript0 bind] in H.
    destruct (py_len r) as [n|e]; cbn [bind] in H; [|discriminate].
    destruct (n =? 1).
    + destruct (subscript0 r) as [value|e]; cbn [bind] in H; [|discriminate].
      injection H as <-. eexists "single"%string, _. split; [reflexivity|tauto].
    + destruct (forallb isinstance_tuple [r]); injection H as <-.
      * eexists "table"%string, _. split; [reflexivity|tauto].
      * eexists "list"%string, _. split; [reflexivity|tauto].
  - rewrite classify_rows in H.
    destruct (forallb isinstance_tuple (r :: r2 :: rows)); injection H as <-.
    + eexists "table"%string, _. split; [reflexivity|tauto].
    + eexists "list"%string, _. split; [reflexivity|tauto].
Qed.

Lemma classify_never_text (v d : pyval) :
  classify v <> Return (tagged "text" d).
Proof.
  intros H. apply classify_shape in H as [tag [d' [H Htag]]].
  apply tagged_inj in H as [H _].
  destruct Htag as [-> | [-> | [-> | ->]]]; discriminate H.
Qed.

Lemma strip_blank (s : str) : Forall is_space s -> strip s = [].
Proof.
  intros H. unfold strip.
  rewrite <- (app_nil_r s), (lstrip_spaces _ H). reflexivity.
Qed.

Lemma bracketed_not_empty (s : str) :
  startswith (of_string "[") (strip s) = true -> s <> [].
Proof. intros H ->. discriminate H. Qed.

(** X5: whenever [parse_results] returns, the result is a dictionary
    [{"type": tag, "data": payload}] whose tag is one of [empty],
    [single], [list], [table], [text]; no other shape leaves the
    function. *)
Theorem X5_result_is_tagged :
  forall (literal_eval : str -> outcome pyval) (results parsed : pyval),
    parse_results literal_eval results = Return parsed ->
    exists tag payload,
      parsed = tagged tag payload /\ In tag result_tags.
Proof.
  intros literal_eval results parsed H. unfold parse_results in H.
  destruct (truthy results).
  2:{ injection H as <-. exists "empty"%string, PNone.
      split; [reflexivity|simpl; tauto]. }
  cbn [negb] in H.
  destruct (parse_string literal_eval results) as [v|v] eqn:E.
  - injection H as <-. destruct results; try discriminate E.
    unfold parse_string in E.
    destruct (startswith (of_string "[") (strip s)
              && endswith (of_string "]") (strip s)).
    + destruct (literal_eval (strip s)); [discriminate|].
      injection E as <-. eexists "text"%string, _.
      split; [reflexivity|simpl; tauto].
    + injection E as <-. eexists "text"%string, _.
      split; [reflexivity|simpl; tauto].
  - apply classify_shape in H as [tag [d [-> Htag]]].
    exists tag, d. split; [reflexivity|].
    simpl. destruct Htag as [<- | [<- | [<- | <-]]]; tauto.
Qed.

Lemma X5_witness :
  exists tag payload,
    tagged "single" (PInt 42) = tagged tag payload /\ In tag result_tags.
Proof.
  exact (@X5_result_is_tagged rejecting_eval (PList [PTuple [PInt 42]])
           (tagged "single" (PInt 42)) eq_refl).
Defined.

(** X6: on an input that is not a string, [parse_results] can raise only
    for a list of exactly one element; every other value (None, numbers,
    tuples, dictionaries, the empty list, lists of two or more elements
    of any kind) gets a tagged result. *)
Theorem X6_only_one_element_lists_can_raise :
  forall (literal_eval : str -> outcome pyval) (results : pyval),
    isinstance_str results = false ->
    is_singleton_list results = false ->
    exists tag payload,
      parse_results literal_eval results = Return (tagged tag payload).
Proof.
  intros literal_eval results Hstr Hone. unfold parse_results.
  destruct (truthy results) eqn:Ht; cbn [negb].
  2:{ now exists "empty"%string, PNone. }
  rewrite parse_string_other by exact Hstr.
  destruct results; try (now eexists "single"%string, _).
  destruct items as [|r [|r2 rows]]; try discriminate.
  rewrite classify_rows.
  destruct (forallb isinstance_tuple (r :: r2 :: rows));
    [now eexists "table"%string, _|now eexists "list"%string, _].
Qed.

Lemma X6_witness :
  exists tag payload,
    parse_results rejecting_eval (PList [PInt 1; PNone; PStr (of_string "x")])
    = Return (tagged tag payload).
Proof.
  exact (@X6_only_one_element_lists_can_raise rejecting_eval
           (PList [PInt 1; PNone; PStr (of_string "x")]) eq_refl eq_refl).
Defined.

(** X7: a string input cannot make [parse_results] raise unless
    [ast.literal_eval] returns a list of exactly one element for it;
    whatever the evaluator raises is swallowed. *)
Theorem X7_string_input_rarely_raises :
  forall (literal_eval : str -> outcome pyval) (s : str),
    (forall v, literal_eval (strip s) = Return v ->
               is_singleton_list v = false) ->
    exists tag payload,
      parse_results literal_eval (PStr s) = Return (tagged tag payload).
Proof.
  intros literal_eval s Hone. unfold parse_results.
  destruct (truthy (PStr s)); cbn [negb].
  2:{ now exists "empty"%string, PNone. }
  unfold parse_string.
  destruct (startswith (of_string "[") (strip s)
            && endswith (of_string "]") (strip s));
    [|now eexists "text"%string, _].
  destruct (literal_eval (strip s)) as [v|e] eqn:E;
    [|now eexists "text"%string, _].
  specialize (Hone v eq_refl).
  destruct v; try (now eexists "single"%string, _).
  destruct items as [|r [|r2 rows]]; try discriminate.
  - now exists "empty"%string, PNone.
  - rewrite classify_rows.
    destruct (forallb isinstance_tuple (r :: r2 :: rows));
      [now eexists "table"%string, _|now eexists "list"%string, _].
Qed.

Lemma X7_witness :
  exists tag payload,
    parse_results rejecting_eval (PStr (of_string "[oops]"))
    = Return (tagged tag payload).
Proof.
  apply (@X7_string_input_rarely_raises rejecting_eval (of_string "[oops]")).
  intros v H. discriminate H.
Defined.

(** X8: the [text] variant comes from string inputs only, and its
    payload is always the input stripped of leading and trailing white
    space. *)
Theorem X8_text_comes_from_strings :
  forall (literal_eval : str -> outcome pyval) (results payload : pyval),
    parse_results literal_eval results = Return (tagged "text" payload) ->
    exists s, results = PStr s /\ payload = PStr (strip s).
Proof.
  intros literal_eval results payload H. unfold parse_results in H.
  destruct (truthy results); cbn [negb] in H.
  2:{ apply return_inj, tagged_inj in H as [H _]. discriminate H. }
  destruct (isinstance_str results) eqn:Hs.
  - destruct results; try discriminate Hs. exists s. split; [reflexivity|].
    unfold parse_string in H.
    destruct (startswith (of_string "[") (strip s)
              && endswith (of_string "]") (strip s)).
    + destruct (literal_eval (strip s)) as [v|e].
      * now apply classify_never_text in H.
      * apply return_inj, tagged_inj in H as [_ H]. now symmetry.
    + apply return_inj, tagged_inj in H as [_ H]. now symmetry.
  - rewrite parse_string_other in H by exact Hs.
    now apply classify_never_text in H.
Qed.

Lemma X8_witness :
  exists s,
    PStr (of_string " [x] ") = PStr s /\ PStr (of_string "[x]") = PStr (strip s).
Proof.
  exact (@X8_text_comes_from_strings rejecting_eval
           (PStr (of_string " [x] ")) (PStr (of_string "[x]")) eq_refl).
Defined.

(** X9: a string that is not empty but consists of white space only is
    not reported as empty: it yields the text variant with the empty
    string as payload. *)
Theorem X9_blank_string_is_empty_text :
  forall (literal_eval : str -> outcome pyval) (s : str),
    s <> [] -> Forall is_space s ->
    parse_results literal_eval (PStr s) = Return (tagged "text" (PStr [])).
Proof.
  intros literal_eval s Hs Hblank. unfold parse_results, parse_string.
  destruct s as [|c s]; [contradiction|].
  cbn [truthy length Nat.eqb negb].
  now rewrite (strip_blank Hblank).
Qed.

Lemma X9_witness :
  parse_results rejecting_eval (PStr (of_string "  " ++ nl))
  = Return (tagged "text" (PStr [])).
Proof.
  apply (@X9_blank_string_is_empty_text rejecting_eval (of_string "  " ++ nl)).
  - discriminate.
  - repeat constructor.
Defined.

(** X10: the string form and the structured form agree: when
    [ast.literal_eval] turns a bracketed string into a list, the string
    is normalised exactly as that list is, with the same result or the
    same exception. *)
Theorem X10_string_form_agrees_with_list :
  forall (literal_eval : str -> outcome pyval) (s : str) (rows : list pyval),
    startswith (of_string "[") (strip s) = true ->
    endswith (of_string "]") (strip s) = true ->
    literal_eval (strip s) = Return (PList rows) ->
    parse_results literal_eval (PStr s) = parse_results literal_eval (PList rows).
Proof.
  intros literal_eval s rows Hopen Hclose Heval.
  pose proof (@bracketed_not_empty s Hopen) as Hs.
  unfold parse_results, parse_string.
  destruct s as [|c s]; [contradiction|].
  cbn [truthy length Nat.eqb negb].
  rewrite Hopen, Hclose, Heval. cbn [andb].
  now destruct rows.
Qed.

Lemma X10_witness :
  parse_results row_eval (PStr (of_string " [(1, 'a')] "))
  = parse_results row_eval (PList [PTuple [PInt 1; PStr (of_string "a")]]).
Proof.
  exact (@X10_string_form_agrees_with_list row_eval
           (of_string " [(1, 'a')] ")
           [PTuple [PInt 1; PStr (of_string "a")]] eq_refl eq_refl eq_refl).
Defined.

(** X11: when [ast.literal_eval] turns a bracketed string into a value
    that is not a list (a tuple of lists, for [[1], [2]]), that value is
    reported as single; its truth value is not tested again. *)
Theorem X11_evaluated_non_list_is_single :
  forall (literal_eval : str -> outcome pyval) (s : str) (v : pyval),
    startswith (of_string "[") (strip s) = true ->
    endswith (of_string "]") (strip s) = true ->
    literal_eval (strip s) = Return v ->
    isinstance_list v = false ->
    parse_results literal_eval (PStr s) = Return (tagged "single" v).
Proof.
  intros literal_eval s v Hopen Hclose Heval Hv.
  pose proof (@bracketed_not_empty s Hopen) as Hs.
  unfold parse_results, parse_string.
  destruct s as [|c s]; [contradiction|].
  cbn [truthy length Nat.eqb negb].
  rewrite Hopen, Hclose, Heval. cbn [andb].
  destruct v; try reflexivity. discriminate Hv.
Qed.

Lemma X11_witness :
  parse_results
    (fun _ => Return (PTuple [PList [PInt 1]; PList [PInt 2]]))
    (PStr (of_string "[1], [2]"))
  = Return (tagged "single" (PTuple [PList [PInt 1]; PList [PInt 2]])).
Proof.
  exact (@X11_evaluated_non_list_is_single
           (fun _ => Return (PTuple [PList [PInt 1]; PList [PInt 2]]))
           (of_string "[1], [2]") (PTuple [PList [PInt 1]; PList [PInt 2]])
           eq_refl eq_refl eq_refl eq_refl).
Defined.

(** X12: a list of two or more elements of which at least one is not a
    tuple yields the list variant with the list itself as payload. *)
Theorem X12_mixed_rows_are_a_list :
  forall (literal_eval : str -> outcome pyval) (rows : list pyval),
    2 <= length rows ->
    forallb isinstance_tuple rows = false ->
    parse_results literal_eval (PList rows)
    = Return (tagged "list" (PList rows)).
Proof.
  intros literal_eval rows Hlen Hrows.
  destruct rows as [|r1 [|r2 rows]]; simpl in Hlen; try lia.
  unfold parse_results. cbn [truthy length Nat.eqb negb parse_string].
  now rewrite classify_rows, Hrows.
Qed.

Lemma X12_witness :
  parse_results rejecting_eval (PList [PInt 1; PInt 2])
  = Return (tagged "list" (PList [PInt 1; PInt 2])).
Proof.
  apply (@X12_mixed_rows_are_a_list rejecting_eval [PInt 1; PInt 2]).
  - apply le_n.
  - reflexivity.
Defined.

(** X13: one row that is a tuple with no column or with two or more
    columns is a table of one row; only the one-column row is unwrapped
    to a single value. *)
Theorem X13_one_wide_row_is_a_table :
  forall (literal_eval : str -> outcome pyval) (columns : list pyval),
    length columns <> 1 ->
    parse_results literal_eval (PList [PTuple columns])
    = Return (tagged "table" (PList [PTuple columns])).
Proof.
  intros literal_eval columns H.
  destruct columns as [|c1 [|c2 columns]];
    [reflexivity|contradiction|reflexivity].
Qed.

Lemma X13_witness :
  parse_results rejecting_eval (PList [PTuple [PInt 1; PStr (of_string "a")]])
  = Return (tagged "table" (PList [PTuple [PInt 1; PStr (of_string "a")]])).
Proof.
  apply (@X13_one_wide_row_is_a_table rejecting_eval
           [PInt 1; PStr (of_string "a")]).
  discriminate.
Defined.

(** X14: a list holding one string is measured by that string's length:
    a one-character string is unwrapped and reported as single, any
    other string leaves the list variant with the list as payload. *)
Theorem X14_list_of_one_string :
  forall (literal_eval : str -> outcome pyval) (s : str),
    parse_results literal_eval (PList [PStr s])
    = Return (if length s =? 1
              then tagged "single" (PStr s)
              else tagged "list" (PList [PStr s])).
Proof.
  intros literal_eval s. destruct s as [|c [|d s]]; reflexivity.
Qed.

(* ================================================================== *)
(** * The [/query] handler, path by path *)

(** The two fixed payloads of the handler are serialised by every JSON
    provider. *)
Lemma jsonify_failure_body (json_error : pyval -> option exn) (e : exn) :
  jsonify json_error (failure_body e) = Return (failure_body e).
Proof. reflexivity. Qed.

(** What [jsonify] returns is the payload it was given. *)
Lemma jsonify_returns (json_error : pyval -> option exn)
    (payload answer : pyval) :
  jsonify json_error payload = Return answer -> answer = payload.
Proof.
  unfold jsonify. destruct (json_plain payload); [congruence|].
  destruct (json_error payload); [discriminate|congruence].
Qed.

(** The handler once the body is an object with a truthy question. *)
Lemma query_with_question (db : SQLDatabase)
    (llm : str -> pyval -> outcome str)
    (literal_eval : str -> outcome pyval)
    (json_error : pyval -> option exn)
    (entries : list (pyval * pyval)) (question : pyval)
    (log : list event) :
  dict_lookup (key_is_str (of_string "question")) entries = Some question ->
  truthy question = true ->
  query db llm literal_eval json_error (Return (PDict entries)) log
  = match fst (get_schema_from_db db log) with
    | Raise e =>
        (Return {| body := failure_body e; status := 500 |},
         log ++ [TableInfo])
    | Return schema =>
        match llm schema question with
        | Raise e =>
            (Return {| body := failure_body e; status := 500 |},
             log ++ [TableInfo; LLMCall schema question])
        | Return raw =>
            let sql_query := extract_sql raw in
            (match run db sql_query with
             | Raise e => Return {| body := failure_body e; status := 500 |}
             | Return results =>
                 match parse_results literal_eval results with
                 | Raise e =>
                     Return {| body := failure_body e; status := 500 |}
                 | Return parsed_results =>
                     match jsonify json_error
                             (success_body sql_query parsed_results) with
                     | Raise e =>
                         Return {| body := failure_body e; status := 500 |}
                     | Return payload =>
                         Return {| body := payload; status := 200 |}
                     end
                 end
             end,
             log ++ [TableInfo; LLMCall schema question; DBRun sql_query])
        end
    end.
Proof.
  intros Hq Ht.
  unfold query, try_except, io_bind, lift, dict_get. rewrite Hq, Ht.
  cbn [negb].
  destruct (fst (get_schema_from_db db log)) as [schema|e] eqn:Hschema.
  2:{ now rewrite (get_sql_query_from_question_no_schema _ _ _ _ Hschema). }
  rewrite (get_sql_query_from_question_full _ _ _ _ Hschema).
  destruct (llm schema question) as [raw|e]; [|reflexivity].
  unfold execute_sql_query. cbn zeta.
  replace ((log ++ [TableInfo; LLMCall schema question])
           ++ [DBRun (extract_sql raw)])
    with (log ++ [TableInfo; LLMCall schema question; DBRun (extract_sql raw)])
    by now rewrite <- app_assoc.
  destruct (run db (extract_sql raw)) as [results|e]; [|reflexivity].
  destruct (parse_results literal_eval results) as [parsed|e]; [|reflexivity].
  fold (success_body (extract_sql raw) parsed).
  now destruct (jsonify json_error (success_body (extract_sql raw) parsed)).
Qed.

(** X15: the success path.  For a body with a truthy question, when the
    tables are read, the model answers, the database runs the extracted
    statement, the normaliser returns and [jsonify] serialises the
    result, the handler answers 200 with
    [{"success": true, "sql_query": ..., "results": ...}]; the statement
    in the body is the one that was run, and the request read the tables
    once, asked the model once and ran one statement, in this order. *)
Theorem X15_query_success :
  forall (db : SQLDatabase) (llm : str -> pyval -> outcome str)
         (literal_eval : str -> outcome pyval)
         (json_error : pyval -> option exn)
         (entries : list (pyval * pyval)) (question : pyval)
         (schema raw : str) (results parsed_results : pyval)
         (log : list event),
    dict_lookup (key_is_str (of_string "question")) entries = Some question ->
    truthy question = true ->
    fst (get_schema_from_db db log) = Return schema ->
    llm schema question = Return raw ->
    run db (extract_sql raw) = Return results ->
    parse_results literal_eval results = Return parsed_results ->
    jsonify json_error (success_body (extract_sql raw) parsed_results)
    = Return (success_body (extract_sql raw) parsed_results) ->
    query db llm literal_eval json_error (Return (PDict entries)) log
    = (Return {| body := success_body (extract_sql raw) parsed_results;
                 status := 200 |},
       log ++ [TableInfo; LLMCall schema question; DBRun (extract_sql raw)]).
Proof.
  intros db llm literal_eval json_error entries question schema raw results
         parsed_results log Hq Ht Hschema Hllm Hrun Hparse Hjson.
  rewrite (query_with_question _ _ _ _ _ _ Hq Ht), Hschema, Hllm.
  cbn zeta. now rewrite Hrun, Hparse, Hjson.
Qed.

Lemma X15_witness :
  query row_db (canned_llm two_fence_response) row_eval lenient_json
    (Return (dict_of [("question", PStr (of_string "first row?"))])) []
  = (Return {| body := success_body (of_string "SELECT `a` FROM t;")
                         (tagged "table"
                            (PList [PTuple [PInt 1; PStr (of_string "a")]]));
               status := 200 |},
     [TableInfo; LLMCall sample_schema (PStr (of_string "first row?"));
      DBRun (of_string "SELECT `a` FROM t;")]).
Proof.
  exact (@X15_query_success row_db (canned_llm two_fence_response) row_eval
           lenient_json
           [(PStr (of_string "question"), PStr (of_string "first row?"))]
           (PStr (of_string "first row?")) sample_schema two_fence_response
           (PStr (of_string "[(1, 'a')]"))
           (tagged "table" (PList [PTuple [PInt 1; PStr (of_string "a")]]))
           [] eq_refl eq_refl eq_refl eq_refl eq_refl eq_refl eq_refl).
Defined.

(** X16: when the model raises after the tables were read, the handler
    answers 500 with [{"success": false, "error": str(e)}] and runs no
    statement: the reading of the tables and the failed LLM call are the
    only external calls of the request. *)
Theorem X16_llm_failure_is_500 :
  forall (db : SQLDatabase) (llm : str -> pyval -> outcome str)
         (literal_eval : str -> outcome pyval)
         (json_error : pyval -> option exn)
         (entries : list (pyval * pyval)) (question : pyval)
         (schema : str) (e : exn) (log : list event),
    dict_lookup (key_is_str (of_string "question")) entries = Some question ->
    truthy question = true ->
    fst (get_schema_from_db db log) = Return schema ->
    llm schema question = Raise e ->
    query db llm literal_eval json_error (Return (PDict entries)) log
    = (Return {| body := failure_body e; status := 500 |},
       log ++ [TableInfo; LLMCall schema question]).
Proof.
  intros db llm literal_eval json_error entries question schema e log
         Hq Ht Hschema Hllm.
  now rewrite (query_with_question _ _ _ _ _ _ Hq Ht), Hschema, Hllm.
Qed.

Lemma X16_witness :
  query sample_db failing_llm rejecting_eval lenient_json
    (Return (dict_of [("question", PStr (of_string "how many?"))])) []
  = (Return {| body := failure_body
                         (Exception (of_string "RuntimeError")
                            (of_string "quota exceeded"));
               status := 500 |},
     [TableInfo; LLMCall sample_schema (PStr (of_string "how many?"))]).
Proof.
  exact (@X16_llm_failure_is_500 sample_db failing_llm rejecting_eval
           lenient_json
           [(PStr (of_string "question"), PStr (of_string "how many?"))]
           (PStr (of_string "how many?")) sample_schema
           (Exception (of_string "RuntimeError") (of_string "quota exceeded"))
           [] eq_refl eq_refl eq_refl eq_refl).
Defined.

(** X17: when the database raises on the extracted statement, the
    handler answers 500 with the driver's message; the statement was
    tried once and is not retried. *)
Theorem X17_database_failure_is_500 :
  forall (db : SQLDatabase) (llm : str -> pyval -> outcome str)
         (literal_eval : str -> outcome pyval)
         (json_error : pyval -> option exn)
         (entries : list (pyval * pyval)) (question : pyval)
         (schema raw : str) (e : exn) (log : list event),
    dict_lookup (key_is_str (of_string "question")) entries = Some question ->
    truthy question = true ->
    fst (get_schema_from_db db log) = Return schema ->
    llm schema question = Return raw ->
    run db (extract_sql raw) = Raise e ->
    query db llm literal_eval json_error (Return (PDict entries)) log
    = (Return {| body := failure_body e; status := 500 |},
       log ++ [TableInfo; LLMCall schema question; DBRun (extract_sql raw)]).
Proof.
  intros db llm literal_eval json_error entries question schema raw e log
         Hq Ht Hschema Hllm Hrun.
  rewrite (query_with_question _ _ _ _ _ _ Hq Ht), Hschema, Hllm.
  cbn zeta. now rewrite Hrun.
Qed.

Lemma X17_witness :
  query broken_db (canned_llm (of_string "SELECT 1")) rejecting_eval
    lenient_json
    (Return (dict_of [("question", PStr (of_string "how many?"))])) []
  = (Return {| body := failure_body
                         (Exception (of_string "ProgrammingError")
                            (of_string "no such table"));
               status := 500 |},
     [TableInfo; LLMCall sample_schema (PStr (of_string "how many?"));
      DBRun (of_string "SELECT 1")]).
Proof.
  exact (@X17_database_failure_is_500 broken_db
           (canned_llm (of_string "SELECT 1")) rejecting_eval lenient_json
           [(PStr (of_string "question"), PStr (of_string "how many?"))]
           (PStr (of_string "how many?")) sample_schema (of_string "SELECT 1")
           (Exception (of_string "ProgrammingError") (of_string "no such table"))
           [] eq_refl eq_refl eq_refl eq_refl eq_refl).
Defined.

(** X18: an exception of [parse_results] is not lost: after both
    external calls were made, the handler answers 500 with the message
    of that exception (for the result [[42]], the [TypeError] of
    [len]). *)
Theorem X18_normaliser_failure_is_500 :
  forall (db : SQLDatabase) (llm : str -> pyval -> outcome str)
         (literal_eval : str -> outcome pyval)
         (json_error : pyval -> option exn)
         (entries : list (pyval * pyval)) (question : pyval)
         (schema raw : str) (results : pyval) (e : exn) (log : list event),
    dict_lookup (key_is_str (of_string "question")) entries = Some question ->
    truthy question = true ->
    fst (get_schema_from_db db log) = Return schema ->
    llm schema question = Return raw ->
    run db (extract_sql raw) = Return results ->
    parse_results literal_eval results = Raise e ->
    query db llm literal_eval json_error (Return (PDict entries)) log
    = (Return {| body := failure_body e; status := 500 |},
       log ++ [TableInfo; LLMCall schema question; DBRun (extract_sql raw)]).
Proof.
  intros db llm literal_eval json_error entries question schema raw results
         e log Hq Ht Hschema Hllm Hrun Hparse.
  rewrite (query_with_question _ _ _ _ _ _ Hq Ht), Hschema, Hllm.
  cbn zeta. now rewrite Hrun, Hparse.
Qed.

Lemma X18_witness :
  query scalar_list_db (canned_llm (of_string "SELECT 42")) rejecting_eval
    lenient_json
    (Return (dict_of [("question", PStr (of_string "answer?"))])) []
  = (Return {| body := failure_body
                         (TypeError (of_string "object of type 'int' has no len()"));
               status := 500 |},
     [TableInfo; LLMCall sample_schema (PStr (of_string "answer?"));
      DBRun (of_string "SELECT 42")]).
Proof.
  exact (@X18_normaliser_failure_is_500 scalar_list_db
           (canned_llm (of_string "SELECT 42")) rejecting_eval lenient_json
           [(PStr (of_string "question"), PStr (of_string "answer?"))]
           (PStr (of_string "answer?")) sample_schema (of_string "SELECT 42")
           (PList [PInt 42])
           (TypeError (of_string "object of type 'int' has no len()"))
           [] eq_refl eq_refl eq_refl eq_refl eq_refl eq_refl).
Defined.

(** When [request.get_json()] raises, the handler answers 500 with the
    message of that exception and makes no external call. *)
Lemma query_unreadable_body (db : SQLDatabase)
    (llm : str -> pyval -> outcome str)
    (literal_eval : str -> outcome pyval)
    (json_error : pyval -> option exn) (e : exn) (log : list event) :
  query db llm literal_eval json_error (Raise e) log
  = (Return {| body := failure_body e; status := 500 |}, log).
Proof. reflexivity. Qed.

Lemma query_no_object (db : SQLDatabase)
    (llm : str -> pyval -> outcome str)
    (literal_eval : str -> outcome pyval)
    (json_error : pyval -> option exn) (data : pyval) (log : list event) :
  isinstance_dict data = false ->
  query db llm literal_eval json_error (Return data) log
  = (Return {| body := failure_body
                         (AttributeError
                            (of_string "'" ++ type_name data
                             ++ of_string "' object has no attribute 'get'"));
               status := 500 |},
     log).
Proof. intros H. destruct data; try reflexivity. discriminate H. Qed.

(** X19: a body that parses to anything but an object (null, a number, a
    string, an array) has no method [get]; the handler answers 500 with
    the [AttributeError] message naming the type, not 400, and makes no
    external call. *)
Theorem X19_body_that_is_no_object_is_500 :
  forall (db : SQLDatabase) (llm : str -> pyval -> outcome str)
         (literal_eval : str -> outcome pyval)
         (json_error : pyval -> option exn) (data : pyval)
         (log : list event),
    isinstance_dict data = false ->
    query db llm literal_eval json_error (Return data) log
    = (Return {| body := failure_body
                           (AttributeError
                              (of_string "'" ++ type_name data
                               ++ of_string "' object has no attribute 'get'"));
                 status := 500 |},
       log).
Proof.
  intros db llm literal_eval json_error data log H.
  now apply query_no_object.
Qed.

Lemma X19_witness :
  query sample_db (canned_llm (of_string "SELECT 1")) rejecting_eval
    lenient_json (Return PNone) []
  = (Return {| body := failure_body
                         (AttributeError
                            (of_string "'NoneType' object has no attribute 'get'"));
               status := 500 |},
     []).
Proof.
  exact (@X19_body_that_is_no_object_is_500 sample_db
           (canned_llm (of_string "SELECT 1")) rejecting_eval lenient_json
           PNone [] eq_refl).
Defined.

Lemma query_without_question (db : SQLDatabase)
    (llm : str -> pyval -> outcome str)
    (literal_eval : str -> outcome pyval)
    (json_error : pyval -> option exn)
    (entries : list (pyval * pyval)) (log : list event) :
  match dict_lookup (key_is_str (of_string "question")) entries with
  | Some question => truthy question = false
  | None => True
  end ->
  query db llm literal_eval json_error (Return (PDict entries)) log
  = (Return {| body := question_required_body; status := 400 |}, log).
Proof.
  intros H. unfold query, try_except, io_bind, lift, dict_get.
  destruct (dict_lookup (key_is_str (of_string "question")) entries) as [q|].
  - now rewrite H.
  - reflexivity.
Qed.

(** X20: whatever the request, the database, the model, the evaluator
    and the JSON provider do, the handler does not raise and answers
    400, 500 or 200.  A 400 carries the "Question is required" body and
    made no external call; a 500 carries
    [{"success": false, "error": ...}]; a 200 carries
    [{"success": true, ...}] with the statement that was run.  The
    external calls of a request are, in this order, at most one reading
    of the tables, at most one LLM call and at most one statement run by
    [db.run]; a later call is made only when the earlier ones were made,
    and nothing is retried. *)
Theorem X20_query_answers_and_calls :
  forall (db : SQLDatabase) (llm : str -> pyval -> outcome str)
         (literal_eval : str -> outcome pyval)
         (json_error : pyval -> option exn) (get_json : outcome pyval)
         (log : list event),
    exists (answer : response) (trace : list event),
      query db llm literal_eval json_error get_json log
      = (Return answer, log ++ trace)
      /\ ((status answer = 400%Z
           /\ body answer = question_required_body /\ trace = [])
          \/ (status answer = 500%Z
              /\ (exists e, body answer = failure_body e)
              /\ (trace = []
                  \/ trace = [TableInfo]
                  \/ (exists schema q, trace = [TableInfo; LLMCall schema q])
                  \/ (exists schema q sql,
                         trace = [TableInfo; LLMCall schema q; DBRun sql])))
          \/ (status answer = 200%Z
              /\ exists schema q sql parsed,
                   body answer = success_body sql parsed
                   /\ trace = [TableInfo; LLMCall schema q; DBRun sql])).
Proof.
  intros db llm literal_eval json_error get_json log.
  destruct get_json as [data|e].
  2:{ eexists _, []. rewrite app_nil_r.
      split; [apply query_unreadable_body|].
      right; left. cbn. split; [reflexivity|].
      split; [now exists e|now left]. }
  destruct (isinstance_dict data) eqn:Hd.
  2:{ eexists _, []. rewrite app_nil_r.
      split; [now apply query_no_object|].
      right; left. cbn. split; [reflexivity|].
      split; [now eexists|now left]. }
  destruct data; try discriminate Hd.
  destruct (dict_lookup (key_is_str (of_string "question")) entries)
    as [question|] eqn:Hq.
  2:{ eexists _, []. rewrite app_nil_r.
      split; [apply query_without_question; now rewrite Hq|].
      left. now cbn. }
  destruct (truthy question) eqn:Ht.
  2:{ eexists _, []. rewrite app_nil_r.
      split; [apply query_without_question; now rewrite Hq|].
      left. now cbn. }
  rewrite (query_with_question _ _ _ _ _ _ Hq Ht).
  destruct (fst (get_schema_from_db db log)) as [schema|e].
  2:{ eexists _, _. split; [reflexivity|].
      right; left. cbn. split; [reflexivity|].
      split; [now exists e|]. right; now left. }
  destruct (llm schema question) as [raw|e].
  2:{ eexists _, _. split; [reflexivity|].
      right; left. cbn. split; [reflexivity|].
      split; [now exists e|]. right; right; left. now eexists _, _. }
  cbn zeta.
  destruct (run db (extract_sql raw)) as [results|e].
  2:{ eexists _, _. split; [reflexivity|].
      right; left. cbn. split; [reflexivity|].
      split; [now exists e|]. right; right; right. now eexists _, _, _. }
  destruct (parse_results literal_eval results) as [parsed|e].
  2:{ eexists _, _. split; [reflexivity|].
      right; left. cbn. split; [reflexivity|].
      split; [now exists e|]. right; right; right. now eexists _, _, _. }
  destruct (jsonify json_error (success_body (extract_sql raw) parsed))
    as [payload|e] eqn:Hjson.
  - apply jsonify_returns in Hjson as ->.
    eexists _, _. split; [reflexivity|].
    right; right. cbn. split; [reflexivity|]. now eexists _, _, _, _.
  - eexists _, _. split; [reflexivity|].
    right; left. cbn. split; [reflexivity|].
    split; [now exists e|]. right; right; right. now eexists _, _, _.
Qed.

(** X23: when the tables cannot be read ([get_table_info()] raises, the
    database being unreachable), the handler answers 500 with the
    message of that exception; the model is not asked and no statement
    is run. *)
Theorem X23_schema_failure_is_500 :
  forall (db : SQLDatabase) (llm : str -> pyval -> outcome str)
         (literal_eval : str -> outcome pyval)
         (json_error : pyval -> option exn)
         (entries : list (pyval * pyval)) (question : pyval)
         (e : exn) (log : list event),
    dict_lookup (key_is_str (of_string "question")) entries = Some question ->
    truthy question = true ->
    fst (get_table_info db log) = Raise e ->
    query db llm literal_eval json_error (Return (PDict entries)) log
    = (Return {| body := failure_body e; status := 500 |},
       log ++ [TableInfo]).
Proof.
  intros db llm literal_eval json_error entries question e log Hq Ht Hinfo.
  rewrite (query_with_question _ _ _ _ _ _ Hq Ht).
  assert (Hschema : fst (get_schema_from_db db log) = Raise e).
  { unfold get_table_info in Hinfo. cbn [fst] in Hinfo.
    destruct (unreachable db) as [e'|] eqn:Hu; [|discriminate].
    injection Hinfo as ->.
    now rewrite (get_schema_from_db_unreachable _ _ Hu). }
  now rewrite Hschema.
Qed.

Lemma X23_witness :
  query offline_db (canned_llm (of_string "SELECT 1")) rejecting_eval
    lenient_json
    (Return (dict_of [("question", PStr (of_string "how many?"))])) []
  = (Return {| body := failure_body
                         (Exception (of_string "OperationalError")
                            (of_string "cannot connect"));
               status := 500 |},
     [TableInfo]).
Proof.
  exact (@X23_schema_failure_is_500 offline_db
           (canned_llm (of_string "SELECT 1")) rejecting_eval lenient_json
           [(PStr (of_string "question"), PStr (of_string "how many?"))]
           (PStr (of_string "how many?"))
           (Exception (of_string "OperationalError") (of_string "cannot connect"))
           [] eq_refl eq_refl eq_refl).
Defined.

(** X24: when [jsonify] cannot serialise the success payload (the
    database returned bytes, say), the exception is raised inside the
    [try]: the handler answers 500 with its message, not 200, after the
    tables were read, the model asked and the statement run. *)
Theorem X24_unserialisable_result_is_500 :
  forall (db : SQLDatabase) (llm : str -> pyval -> outcome str)
         (literal_eval : str -> outcome pyval)
         (json_error : pyval -> option exn)
         (entries : list (pyval * pyval)) (question : pyval)
         (schema raw : str) (results parsed_results : pyval) (e : exn)
         (log : list event),
    dict_lookup (key_is_str (of_string "question")) entries = Some question ->
    truthy question = true ->
    fst (get_schema_from_db db log) = Return schema ->
    llm schema question = Return raw ->
    run db (extract_sql raw) = Return results ->
    parse_results literal_eval results = Return parsed_results ->
    jsonify json_error (success_body (extract_sql raw) parsed_results)
    = Raise e ->
    query db llm literal_eval json_error (Return (PDict entries)) log
    = (Return {| body := failure_body e; status := 500 |},
       log ++ [TableInfo; LLMCall schema question; DBRun (extract_sql raw)]).
Proof.
  intros db llm literal_eval json_error entries question schema raw results
         parsed_results e log Hq Ht Hschema Hllm Hrun Hparse Hjson.
  rewrite (query_with_question _ _ _ _ _ _ Hq Ht), Hschema, Hllm.
  cbn zeta. now rewrite Hrun, Hparse, Hjson.
Qed.

Lemma X24_witness :
  query bytes_db (canned_llm (of_string "SELECT 1")) rejecting_eval
    refusing_json
    (Return (dict_of [("question", PStr (of_string "blob?"))])) []
  = (Return {| body := failure_body
                         (Exception (of_string "TypeError")
                            (of_string "Object of type bytes is not JSON serializable"));
               status := 500 |},
     [TableInfo; LLMCall sample_schema (PStr (of_string "blob?"));
      DBRun (of_string "SELECT 1")]).
Proof.
  exact (@X24_unserialisable_result_is_500 bytes_db
           (canned_llm (of_string "SELECT 1")) rejecting_eval refusing_json
           [(PStr (of_string "question"), PStr (of_string "blob?"))]
           (PStr (of_string "blob?")) sample_schema (of_string "SELECT 1")
           (PBytes (of_string "x")) (tagged "single" (PBytes (of_string "x")))
           (Exception (of_string "TypeError")
              (of_string "Object of type bytes is not JSON serializable"))
           [] eq_refl eq_refl eq_refl eq_refl eq_refl eq_refl eq_refl).
Defined.

(* ================================================================== *)
(** * What an extracted query looks like *)

Lemma startswith_app (p x y : str) :
  startswith p x = true -> startswith p (x ++ y) = true.
Proof.
  revert x. induction p as [|c p IH]; intros x H; [reflexivity|].
  destruct x as [|d x]; [discriminate|].
  cbn [startswith app] in *. apply andb_true_iff in H as [H1 H2].
  now rewrite H1, IH.
Qed.

(** The interior of a block holds no fence. *)
Lemma block_at_no_fence (s interior : str) (i : nat) :
  block_at s = Some interior -> startswith fence (skipn i interior) = false.
Proof.
  unfold block_at. intros H.
  destruct (startswith_ci sql_opener s); [|discriminate].
  generalize dependent (skipn 6 s). intros t H.
  destruct (find fence t) as [n|] eqn:Hf; [|discriminate].
  cbn [option_map] in H. apply (f_equal (fun o => match o with
                                                   | Some x => x
                                                   | None => interior
                                                   end)) in H.
  subst interior.
  destruct (find_fence_split _ Hf) as [post [_ [_ Hin]]].
  destruct (skipn i (firstn n t)) as [|c b] eqn:Hb; [reflexivity|].
  destruct (startswith fence (c :: b)) eqn:E; [|reflexivity].
  rewrite <- (Hin (firstn i (firstn n t)) (c :: b));
    [|now rewrite <- Hb, firstn_skipn|discriminate].
  symmetry. now apply startswith_app.
Qed.

Lemma first_block_no_fence (s interior : str) (i : nat) :
  first_block s = Some interior ->
  startswith fence (skipn i interior) = false.
Proof.
  induction s as [|c s IH]; cbn [first_block]; intros H.
  - destruct (block_at []) eqn:E; [|discriminate]. injection H as ->.
    now apply block_at_no_fence with (s := []).
  - destruct (block_at (c :: s)) eqn:E.
    + injection H as ->. now apply block_at_no_fence with (s := c :: s).
    + now apply IH.
Qed.

(** A part of a text without fence has no fence. *)
Lemma substring_no_fence (x y : str) :
  substring x y ->
  (forall i, startswith fence (skipn i y) = false) ->
  find fence x = None.
Proof.
  intros [a [b ->]] H. apply index_of_none_intro. intros i.
  destruct (startswith fence (skipn i x)) eqn:E; [|reflexivity].
  assert (Hi : i <= length x).
  { destruct (Nat.le_gt_cases i (length x)) as [Hle|Hgt]; [exact Hle|].
    rewrite skipn_all2 in E by lia. discriminate E. }
  rewrite <- (H (i + length a)).
  rewrite <- skipn_skipn, (skipn_front _ _ eq_refl), skipn_app.
  replace (i - length x) with 0 by lia. cbn [skipn].
  symmetry. now apply startswith_app.
Qed.

(** X21: when the response holds an SQL block, the query that comes back
    is the trimmed interior of the leftmost block; it contains no three
    backticks in a row and neither starts nor ends with white space. *)
Theorem X21_extracted_query_is_clean :
  forall (db : SQLDatabase) (llm : str -> pyval -> outcome str)
         (question : pyval) (raw interior : str) (log log' : list event),
    sql_chain_invoke db llm question log = (Return raw, log') ->
    first_block raw = Some interior ->
    get_sql_query_from_question db llm question log
    = (Return (strip interior), log')
    /\ find fence (strip interior) = None
    /\ strip (strip interior) = strip interior.
Proof.
  intros db llm question raw interior log log' H Hblock.
  split; [|split].
  - rewrite (extraction_of_response _ _ _ _ H). unfold extract_sql.
    now rewrite Hblock.
  - apply substring_no_fence with (y := interior);
      [apply substring_strip|].
    intros i. now apply first_block_no_fence with (s := raw).
  - apply strip_idempotent.
Qed.

Lemma X21_witness :
  get_sql_query_from_question sample_db (canned_llm two_fence_response)
    (PStr (of_string "q")) []
  = (Return (strip (nl ++ of_string "SELECT `a` FROM t;" ++ nl)),
     [TableInfo; LLMCall sample_schema (PStr (of_string "q"))])
  /\ find fence (strip (nl ++ of_string "SELECT `a` FROM t;" ++ nl)) = None
  /\ strip (strip (nl ++ of_string "SELECT `a` FROM t;" ++ nl))
     = strip (nl ++ of_string "SELECT `a` FROM t;" ++ nl).
Proof.
  exact (@X21_extracted_query_is_clean sample_db
           (canned_llm two_fence_response) (PStr (of_string "q"))
           two_fence_response (nl ++ of_string "SELECT `a` FROM t;" ++ nl)
           [] _ eq_refl eq_refl).
Defined.

(** X22: every truthy value that is neither a string nor a list is
    reported as single with the value itself as payload; this includes
    tuples and dictionaries, so rows that arrive as a tuple of tuples are
    not a table. *)
Theorem X22_truthy_non_list_is_single :
  forall (literal_eval : str -> outcome pyval) (results : pyval),
    truthy results = true ->
    isinstance_str results = false ->
    isinstance_list results = false ->
    parse_results literal_eval results = Return (tagged "single" results).
Proof.
  intros literal_eval results Ht Hs Hl. now apply parse_results_scalar.
Qed.

Lemma X22_witness :
  parse_results rejecting_eval
    (PTuple [PTuple [PInt 1; PStr (of_string "a")];
             PTuple [PInt 2; PStr (of_string "b")]])
  = Return (tagged "single"
              (PTuple [PTuple [PInt 1; PStr (of_string "a")];
                       PTuple [PInt 2; PStr (of_string "b")]])).
Proof.
  exact (@X22_truthy_non_list_is_single rejecting_eval
           (PTuple [PTuple [PInt 1; PStr (of_string "a")];
                    PTuple [PInt 2; PStr (of_string "b")]])
           eq_refl eq_refl eq_refl).
Defined.
